(** * The SSR HTTP plugin (src/SSR/plugins/1.js): request pipeline and data store

    A shallow embedding of [HttpClient], [SSRDataStore] and [httpPlugin].
    Asynchronous code is written in a state-and-exception monad: an [await]
    is a bind, a rejected promise is a [Throw].  Console output is not
    modelled. *)

From Stdlib Require Import ZArith String Ascii List Lia DecimalString Sorted.
From stdpp Require Import base option list gmap strings.
From Equations Require Import Equations.

Open Scope string_scope.
Open Scope Z_scope.
Open Scope list_scope.

(** ** Strings as the code uses them *)

Module Str.

(** [s.startsWith(p)] *)
Fixpoint startsWith (s p : string) : bool :=
  match p with
  | EmptyString => true
  | String c p' =>
      match s with
      | EmptyString => false
      | String d s' => Ascii.eqb c d && startsWith s' p'
      end
  end.

(** [s.includes(p)] *)
Fixpoint includes (s p : string) : bool :=
  startsWith s p ||
  match s with
  | EmptyString => false
  | String _ s' => includes s' p
  end.

(** Template-literal rendering of an integer, [`${n}`]. *)
Definition of_Z (n : Z) : string := NilZero.string_of_int (Z.to_int n).

(** A string is falsy exactly when it is empty. *)
Definition nonempty (s : string) : bool :=
  match s with EmptyString => false | String _ _ => true end.

End Str.

(** ** Requests, responses and thrown values *)

(** A header object, [{name: value}]. *)
Abbreviation Headers := (gmap string string).

(** The per-call [options] object.  A field is [None] when the caller's
    object has no such property. *)
Module Options.
Record t := {
  method : option string;
  headers : option Headers;
  body : option string;
  cache : option bool;
  cacheTimeout : option Z;
  url : option string;
  baseURL : option string;
  timestamp : option bool
}.

Definition empty : t :=
  {| method := None; headers := None; body := None; cache := None;
     cacheTimeout := None; url := None; baseURL := None; timestamp := None |}.
End Options.

(** The [config] object built by [request]: [method] and [headers] are always
    set, everything else is whatever [...options] copied. *)
Module Config.
Record t := {
  method : string;
  headers : Headers;
  body : option string;
  cache : option bool;
  cacheTimeout : option Z;
  url : option string;
  baseURL : option string;
  timestamp : option bool
}.

(** [config.url = u] *)
Definition set_url (c : t) (u : option string) : t :=
  {| method := method c; headers := headers c; body := body c;
     cache := cache c; cacheTimeout := cacheTimeout c; url := u;
     baseURL := baseURL c; timestamp := timestamp c |}.

(** [config.headers[k] = v] *)
Definition set_header (c : t) (k v : string) : t :=
  {| method := method c; headers := <[k := v]> (headers c); body := body c;
     cache := cache c; cacheTimeout := cacheTimeout c; url := url c;
     baseURL := baseURL c; timestamp := timestamp c |}.
End Config.

(** An [Error] instance ([Error], [TypeError], the [AbortError]
    DOMException): it has a [name] and a [message], and no [status]. *)
Record ErrorObject := { name : string; message : string }.

(** JavaScript values that travel through the pipeline. *)
#[warnings="-register-all"]
Inductive JsVal :=
| VUndefined
| VNull
| VBool (b : bool)
| VNum (n : Z)
| VStr (s : string)
| VObject (props : list (string * JsVal))
| VConfig (c : Config.t)
| VResult (data : JsVal) (status : Z) (statusText : string)
          (headers : Headers) (config : Config.t)
| VError (e : ErrorObject)
| VNormalized (msg : JsVal) (status : JsVal) (config : Config.t)
              (originalError : JsVal).

(** What [fetch] resolves with.  [json] and [text] are the outcomes of
    reading the body ([inr]: the read rejects with that error). *)
Module Response.
Record t := {
  status : Z;
  statusText : string;
  headers : Headers;
  json : JsVal + ErrorObject;
  text : JsVal + ErrorObject
}.

(** [response.ok]: the status is in the range 200-299. *)
Definition ok (r : t) : bool := (200 <=? status r) && (status r <=? 299).
End Response.

(** JavaScript truthiness. *)
Definition truthy (v : JsVal) : bool :=
  match v with
  | VUndefined | VNull => false
  | VBool b => b
  | VNum n => negb (n =? 0)
  | VStr s => Str.nonempty s
  | _ => true
  end.

Definition TypeError (m : string) : JsVal :=
  VError {| name := "TypeError"; message := m |}.

Fixpoint lookup_prop (props : list (string * JsVal)) (p : string) : JsVal :=
  match props with
  | [] => VUndefined
  | (k, v) :: rest => if String.eqb k p then v else lookup_prop rest p
  end.

(** Property read [v.p], for the properties the code reads off values it did
    not build ([message], [status], [name]).  Reading a property of [null] or
    [undefined] throws a TypeError ([inr]). *)
Definition get_prop (v : JsVal) (p : string) : JsVal + JsVal :=
  match v with
  | VUndefined =>
      inr (TypeError ("Cannot read properties of undefined (reading '" +:+ p +:+ "')"))
  | VNull =>
      inr (TypeError ("Cannot read properties of null (reading '" +:+ p +:+ "')"))
  | VObject props => inl (lookup_prop props p)
  | VError e =>
      inl (if String.eqb p "message" then VStr (message e)
           else if String.eqb p "name" then VStr (name e) else VUndefined)
  | VResult _ st _ _ _ =>
      inl (if String.eqb p "status" then VNum st else VUndefined)
  | VNormalized m st _ _ =>
      inl (if String.eqb p "message" then m
           else if String.eqb p "status" then st else VUndefined)
  | _ => inl VUndefined
  end.

(** ** Promises as a state-and-exception monad *)

Inductive Completion (A : Type) :=
| Normal (a : A)
| Throw (e : JsVal).
Arguments Normal {A} a.
Arguments Throw {A} e.

Definition M (S A : Type) : Type := S -> Completion A * S.

Definition ret {S A} (a : A) : M S A := fun s => (Normal a, s).
Definition throw {S A} (e : JsVal) : M S A := fun s => (Throw e, s).
Definition bind {S A B} (m : M S A) (k : A -> M S B) : M S B :=
  fun s => match m s with
           | (Normal a, s') => k a s'
           | (Throw e, s') => (Throw e, s')
           end.
(** [try { m } catch (e) { h e }] *)
Definition try_catch {S A} (m : M S A) (h : JsVal -> M S A) : M S A :=
  fun s => match m s with
           | (Normal a, s') => (Normal a, s')
           | (Throw e, s') => h e s'
           end.
Definition gets {S A} (f : S -> A) : M S A := fun s => (Normal (f s), s).
Definition modify {S} (f : S -> S) : M S unit := fun s => (Normal tt, f s).
(** Evaluate [v.p], throwing where JavaScript does. *)
Definition prop {S} (v : JsVal) (p : string) : M S JsVal :=
  match get_prop v p with inl x => ret x | inr e => throw e end.

Notation "'await' x := m 'in' k" := (bind m (fun x => k))
  (at level 10, x name, m at level 100, k at level 200).
Notation "'run' m 'in' k" := (bind m (fun _ => k))
  (at level 10, m at level 100, k at level 200).

(** ** The world outside the client *)

(** What interceptor bodies can see and change: the clock, whether a
    [window] exists, and [localStorage]. *)
Record Env := {
  now : Z;
  window_defined : bool;
  localStorage : gmap string string
}.

Definition set_now (t : Z) (e : Env) : Env :=
  {| now := t; window_defined := window_defined e; localStorage := localStorage e |}.

Definition set_localStorage (l : gmap string string) (e : Env) : Env :=
  {| now := now e; window_defined := window_defined e; localStorage := l |}.

(** How one [fetch] call ends: after [latency] ms it resolves with a
    response or rejects with an error. *)
Record FetchOutcome := {
  latency : Z;
  settles : Response.t + ErrorObject
}.

(** [fetch_log] records every [fetch(url, init)] made so far, oldest first;
    [network] is the outside world's answer to the n-th call. *)
Record World := {
  env : Env;
  fetch_log : list (string * Config.t);
  network : nat -> string -> Config.t -> FetchOutcome
}.

Definition set_env (e : Env) (w : World) : World :=
  {| env := e; fetch_log := fetch_log w; network := network w |}.

Definition log_fetch (u : string) (init : Config.t) (w : World) : World :=
  {| env := env w; fetch_log := fetch_log w ++ [(u, init)]; network := network w |}.

(** Let [ms] milliseconds pass. *)
Definition elapse (ms : Z) (w : World) : World :=
  set_env (set_now (now (env w) + ms) (env w)) w.

(** Run an interceptor-level computation inside the world. *)
Definition in_env {A} (m : M Env A) : M World A :=
  fun w => let (r, e) := m (env w) in (r, set_env e w).

(** An entry of [interceptors.request] or [interceptors.response]:
    [{ fulfilled, rejected }], either of which may be missing. *)
Record Interceptor (A : Type) := {
  fulfilled : option (A -> M Env A);
  rejected : option (JsVal -> M Env JsVal)
}.
Arguments fulfilled {A} i.
Arguments rejected {A} i.

Record CacheEntry := { data : JsVal; timestamp : Z }.

(** ** [JSON.stringify] on a string *)

Module JSON.

Definition hex (n : N) : ascii :=
  if (n <? 10)%N then ascii_of_N (48 + n) else ascii_of_N (87 + n).

Definition backslash : ascii := "092"%char.
Definition dquote : ascii := "034"%char.

Definition escape (c : ascii) (rest : string) : string :=
  let n := N_of_ascii c in
  if (n =? 34)%N then String backslash (String dquote rest)
  else if (n =? 92)%N then String backslash (String backslash rest)
  else if (n =? 8)%N then String backslash (String "b" rest)
  else if (n =? 9)%N then String backslash (String "t" rest)
  else if (n =? 10)%N then String backslash (String "n" rest)
  else if (n =? 12)%N then String backslash (String "f" rest)
  else if (n =? 13)%N then String backslash (String "r" rest)
  else if (n <? 32)%N then
    String backslash (String "u" (String "0" (String "0"
      (String (hex (n / 16)) (String (hex (n mod 16)) rest)))))
  else String c rest.

Fixpoint escape_all (s : string) : string :=
  match s with
  | EmptyString => String dquote EmptyString
  | String c s' => escape c (escape_all s')
  end.

Definition stringify (s : string) : string := String dquote (escape_all s).

End JSON.

(** ** class HttpClient *)

Module HttpClient.

(** The constructor's [options]. *)
Record ctor_options := {
  opt_baseURL : option string;
  opt_timeout : option Z;
  opt_headers : option Headers;
  opt_cacheTimeout : option Z;
  opt_retryCount : option Z;
  opt_retryDelay : option Z
}.

(** [retryCount] is read by the guard [retryCount < this.retryCount] only,
    against a counter that starts at 0 and goes up by one: the field holds
    the number of retries that guard admits, which for an integer value is
    the value itself when it is positive and none otherwise. *)
Record t := {
  baseURL : string;
  timeout : Z;
  headers : Headers;
  interceptors_request : list (Interceptor Config.t);
  interceptors_response : list (Interceptor JsVal);
  cache : gmap string CacheEntry;
  cacheTimeout : Z;
  retryCount : nat;
  retryDelay : Z
}.

(** [x || d] on an optional number: a missing property and 0 both give
    the default. *)
Definition or_Z (x : option Z) (d : Z) : Z :=
  match x with Some v => if v =? 0 then d else v | None => d end.
Definition or_string (x : option string) (d : string) : string :=
  match x with Some v => if Str.nonempty v then v else d | None => d end.

Definition constructor (options : ctor_options) : t :=
  {| baseURL := or_string (opt_baseURL options) "";
     timeout := or_Z (opt_timeout options) 10000;
     headers := default ∅ (opt_headers options);
     interceptors_request := [];
     interceptors_response := [];
     cache := ∅;
     cacheTimeout := or_Z (opt_cacheTimeout options) (5 * 60 * 1000);
     retryCount := Z.to_nat (or_Z (opt_retryCount options) 3);
     retryDelay := or_Z (opt_retryDelay options) 1000 |}.

Definition set_cache (m : gmap string CacheEntry) (this : t) : t :=
  {| baseURL := baseURL this; timeout := timeout this; headers := headers this;
     interceptors_request := interceptors_request this;
     interceptors_response := interceptors_response this;
     cache := m; cacheTimeout := cacheTimeout this;
     retryCount := retryCount this; retryDelay := retryDelay this |}.

Definition addRequestInterceptor
    (fulfilled : option (Config.t -> M Env Config.t))
    (rejected : option (JsVal -> M Env JsVal)) (this : t) : t :=
  {| baseURL := baseURL this; timeout := timeout this; headers := headers this;
     interceptors_request :=
       interceptors_request this
         ++ [{| fulfilled := fulfilled; rejected := rejected |}];
     interceptors_response := interceptors_response this;
     cache := cache this; cacheTimeout := cacheTimeout this;
     retryCount := retryCount this; retryDelay := retryDelay this |}.

Definition addResponseInterceptor
    (fulfilled : option (JsVal -> M Env JsVal))
    (rejected : option (JsVal -> M Env JsVal)) (this : t) : t :=
  {| baseURL := baseURL this; timeout := timeout this; headers := headers this;
     interceptors_request := interceptors_request this;
     interceptors_response :=
       interceptors_response this
         ++ [{| fulfilled := fulfilled; rejected := rejected |}];
     cache := cache this; cacheTimeout := cacheTimeout this;
     retryCount := retryCount this; retryDelay := retryDelay this |}.

(** One turn of the [for (const interceptor of ...)] loop: the [try] runs
    [fulfilled] when there is one; the [catch] throws what [rejected]
    returns ([throw await interceptor.rejected(error)]), or the error
    itself when there is no [rejected]. *)
Definition stage {A} (interceptor : Interceptor A) (processed : A) : M Env A :=
  try_catch
    (match fulfilled interceptor with
     | Some f => f processed
     | None => ret processed
     end)
    (fun error =>
       match rejected interceptor with
       | Some r => await v := r error in throw v
       | None => throw error
       end).

(** The loop shared, word for word, by [processRequestInterceptors] and
    [processResponseInterceptors]. *)
Fixpoint runInterceptors {A} (l : list (Interceptor A)) (processed : A) : M Env A :=
  match l with
  | [] => ret processed
  | interceptor :: rest =>
      await processed' := stage interceptor processed in
      runInterceptors rest processed'
  end.

Definition processRequestInterceptors (this : t) (config : Config.t) : M Env Config.t :=
  runInterceptors (interceptors_request this) config.

Definition processResponseInterceptors (this : t) (response : JsVal) : M Env JsVal :=
  runInterceptors (interceptors_response this) response.

(** The recovery the specification describes, for the stage [s] of the
    chain [before ++ s :: after]: when [s] throws and its [rejected] handler
    returns a value, that value replaces the config or result and the
    stages of [after] run on it. *)
Definition recovery_resumes {A} (of_value : JsVal -> option A)
    (before : list (Interceptor A)) (s : Interceptor A)
    (after : list (Interceptor A)) (x : A) (e : Env) : Prop :=
  forall x1 e1 f err e2 r v e3 substitute,
    runInterceptors before x e = (Normal x1, e1) ->
    fulfilled s = Some f -> f x1 e1 = (Throw err, e2) ->
    rejected s = Some r -> r err e2 = (Normal v, e3) ->
    of_value v = Some substitute ->
    runInterceptors (before ++ s :: after) x e = runInterceptors after substitute e3.

Definition config_of_value (v : JsVal) : option Config.t :=
  match v with VConfig c => Some c | _ => None end.

(** [`${method}:${url}:${body}`] *)
Definition generateCacheKey (url : string) (options : Config.t) : string :=
  let method := if Str.nonempty (Config.method options)
                then Config.method options else "GET" in
  let body := match Config.body options with
              | Some b => if Str.nonempty b then JSON.stringify b else ""
              | None => ""
              end in
  method +:+ ":" +:+ url +:+ ":" +:+ body.

(** The state a method call runs in: the client object and the world. *)
Record St := { this : t; world : World }.

Definition in_world {A} (m : M World A) : M St A :=
  fun s => let (r, w) := m (world s) in (r, {| this := this s; world := w |}).

Definition Date_now : M St Z := gets (fun s => now (env (world s))).

Definition update_cache (f : gmap string CacheEntry -> gmap string CacheEntry)
  : M St unit :=
  modify (fun s => {| this := set_cache (f (cache (this s))) (this s);
                      world := world s |}).

(** A cached entry is an object, so [cached && ...] only tests presence. *)
Definition getCache (cacheKey : string) : M St JsVal :=
  await cached := gets (fun s => cache (this s) !! cacheKey) in
  await t := Date_now in
  await cacheTimeout := gets (fun s => cacheTimeout (this s)) in
  match cached with
  | Some entry =>
      if t - timestamp entry <? cacheTimeout then ret (data entry)
      else run update_cache (delete cacheKey) in ret VNull
  | None => run update_cache (delete cacheKey) in ret VNull
  end.

Definition setCache (cacheKey : string) (data : JsVal) : M St unit :=
  await t := Date_now in
  update_cache (insert cacheKey {| data := data; timestamp := t |}).

Definition shouldRetry (error : ErrorObject) : bool :=
  String.eqb (name error) "AbortError"
  || Str.includes (message error) "fetch"
  || Str.includes (message error) "5".

Definition delay (ms : Z) : M World unit := modify (elapse ms).

Definition AbortError : ErrorObject :=
  {| name := "AbortError"; message := "This operation was aborted" |}.

(** [new Error(`HTTP ${response.status}: ${response.statusText}`)] *)
Definition HttpError (response : Response.t) : ErrorObject :=
  {| name := "Error";
     message := "HTTP " +:+ Str.of_Z (Response.status response) +:+ ": "
                +:+ Response.statusText response |}.

(** How the [try] block of [requestWithRetry] ends for a given answer of
    the network, and after how many milliseconds: the abort timer fires when
    the fetch has not settled after [this.timeout] ms, and a response that
    is not [ok] is turned into an [Error].  Everything thrown here is an
    [Error] instance. *)
Definition settle (this : t) (outcome : FetchOutcome)
  : (Response.t + ErrorObject) * Z :=
  if latency outcome <? timeout this then
    match settles outcome with
    | inl response =>
        if Response.ok response then (inl response, latency outcome)
        else (inr (HttpError response), latency outcome)
    | inr error => (inr error, latency outcome)
    end
  else (inr AbortError, timeout this).

(** The [try] block of [requestWithRetry]: one [fetch(url, options)]. *)
Definition attempt (this : t) (url : string) (options : Config.t) (w : World)
  : (Response.t + ErrorObject) * World :=
  let outcome := network w (length (fetch_log w)) url options in
  let w := log_fetch url options w in
  let (r, ms) := settle this outcome in
  (r, elapse ms w).

Equations? requestWithRetry (this : t) (url : string) (options : Config.t)
    (retryCount : nat) (w : World) : Completion Response.t * World
    by wf (HttpClient.retryCount this - retryCount)%nat lt :=
  requestWithRetry this url options retryCount w
    with attempt this url options w := {
    | (inl response, w1) => (Normal response, w1)
    | (inr error, w1) with lt_dec retryCount (HttpClient.retryCount this) := {
        | left _ with shouldRetry error := {
            | true => requestWithRetry this url options (S retryCount)
                        (snd (delay (retryDelay this) w1))
            | false => (Throw (VError error), w1) }
        | right _ => (Throw (VError error), w1) } }.
Proof. lia. Qed.

(** How the [i]-th [fetch] counted from world [w] onwards will end. *)
Definition nth_outcome (this : t) (url : string) (options : Config.t)
    (w : World) (i : nat) : Response.t + ErrorObject :=
  fst (settle this (network w (length (fetch_log w) + i)%nat url options)).

(** [{ method: 'GET', headers: { 'Content-Type': 'application/json',
    ...this.headers, ...options.headers }, ...options }].  A later spread
    overwrites earlier properties of the same name; [∪] keeps its left
    operand on a collision.  The final [...options] copies every property
    [options] has, [method] and [headers] included. *)
Definition build_config (this : t) (options : Options.t) : Config.t :=
  let merged : Headers :=
    default ∅ (Options.headers options)
      ∪ (headers this ∪ {[ "Content-Type" := "application/json" ]}) in
  {| Config.method := default "GET" (Options.method options);
     Config.headers := default merged (Options.headers options);
     Config.body := Options.body options;
     Config.cache := Options.cache options;
     Config.cacheTimeout := Options.cacheTimeout options;
     Config.url := Options.url options;
     Config.baseURL := Options.baseURL options;
     Config.timestamp := Options.timestamp options |}.

Definition fullUrl (this : t) (url : string) : string :=
  if Str.startsWith url "http" then url else baseURL this +:+ url.

(** [config.method === 'GET' && config.cache !== false] *)
Definition cacheable (config : Config.t) : bool :=
  String.eqb (Config.method config) "GET"
  && match Config.cache config with Some false => false | _ => true end.

(** [await response.json()] or [await response.text()] *)
Definition read_body {S} (r : JsVal + ErrorObject) : M S JsVal :=
  match r with inl v => ret v | inr e => throw (VError e) end.

(** [contentType && contentType.includes('application/json')] *)
Definition is_json (contentType : option string) : bool :=
  match contentType with
  | Some ct => Str.includes ct "application/json"
  | None => false
  end.

(** The cache check of [request]: [Some cachedResponse] when the block
    returns from [request], [None] when control goes on to the [try]. *)
Definition cache_check (fullUrl : string) (config : Config.t)
  : M St (option JsVal) :=
  if cacheable config then
    let cacheKey := generateCacheKey fullUrl config in
    await cachedResponse := getCache cacheKey in
    ret (if truthy cachedResponse then Some cachedResponse else None)
  else ret None.

(** The [try] block of [request]. *)
Definition try_block (this : t) (fullUrl : string) (config : Config.t)
  : M St JsVal :=
  await response := in_world (requestWithRetry this fullUrl config 0) in
  let contentType := Response.headers response !! "content-type" in
  await data :=
    (if is_json contentType then read_body (Response.json response)
     else read_body (Response.text response)) in
  let result :=
    VResult data (Response.status response) (Response.statusText response)
            (Response.headers response) config in
  await processedResult :=
    in_world (in_env (processResponseInterceptors this result)) in
  run (if cacheable config then
         let cacheKey := generateCacheKey fullUrl config in
         setCache cacheKey processedResult
       else ret tt) in
  ret processedResult.

(** The [catch (error)] block of [request].  Its inner [try]/[catch] only
    rethrows. *)
Definition catch_block (this : t) (config : Config.t) (error : JsVal)
  : M St JsVal :=
  run in_world (in_env (processResponseInterceptors this VNull)) in
  await message := prop error "message" in
  await status := prop error "status" in
  throw (VNormalized message (if truthy status then status else VNum 0)
                     config error).

Definition request (url : string) (options : Options.t) : M St JsVal :=
  await this := gets this in
  let fullUrl := fullUrl this url in
  let config := build_config this options in
  await config := in_world (in_env (processRequestInterceptors this config)) in
  await hit := cache_check fullUrl config in
  match hit with
  | Some cachedResponse => ret cachedResponse
  | None => try_catch (try_block this fullUrl config) (catch_block this config)
  end.

(** [{ ...config, method: m }] *)
Definition with_method (config : Options.t) (m : string) : Options.t :=
  {| Options.method := Some m;
     Options.headers := Options.headers config;
     Options.body := Options.body config;
     Options.cache := Options.cache config;
     Options.cacheTimeout := Options.cacheTimeout config;
     Options.url := Options.url config;
     Options.baseURL := Options.baseURL config;
     Options.timestamp := Options.timestamp config |}.

Definition get (url : string) (config : Options.t) : M St JsVal :=
  request url (with_method config "GET").

(** The [delete] method.  ([post] and [put] are [request] with a body
    serialized from arbitrary data; nothing below calls them.) *)
Definition delete_ (url : string) (config : Options.t) : M St JsVal :=
  request url (with_method config "DELETE").

(** [post(url, data, config)] and [put(url, data, config)]:
    [{ ...config, method, body: JSON.stringify(data) }].  [JSON.stringify] on
    arbitrary data is the host's; it yields [undefined] ([None]) for data
    that has no JSON form. *)
Definition with_method_body (config : Options.t) (m : string) (b : option string)
  : Options.t :=
  {| Options.method := Some m;
     Options.headers := Options.headers config;
     Options.body := b;
     Options.cache := Options.cache config;
     Options.cacheTimeout := Options.cacheTimeout config;
     Options.url := Options.url config;
     Options.baseURL := Options.baseURL config;
     Options.timestamp := Options.timestamp config |}.

Definition post (JSON_stringify : JsVal -> option string)
    (url : string) (data : JsVal) (config : Options.t) : M St JsVal :=
  request url (with_method_body config "POST" (JSON_stringify data)).

Definition put (JSON_stringify : JsVal -> option string)
    (url : string) (data : JsVal) (config : Options.t) : M St JsVal :=
  request url (with_method_body config "PUT" (JSON_stringify data)).

End HttpClient.

(** ** The containers of the data store *)

(** A JavaScript [Map] with string keys: entries in insertion order, one per
    key; [set] on a present key replaces its value where it stands. *)
Module JsMap.
Section Ops.
Context {V : Type}.

Definition t := list (string * V).

Fixpoint set (k : string) (v : V) (m : list (string * V)) : list (string * V) :=
  match m with
  | [] => [(k, v)]
  | (k', v') :: rest =>
      if String.eqb k' k then (k, v) :: rest else (k', v') :: set k v rest
  end.

Fixpoint get (k : string) (m : list (string * V)) : option V :=
  match m with
  | [] => None
  | (k', v') :: rest => if String.eqb k' k then Some v' else get k rest
  end.

Definition has (k : string) (m : list (string * V)) : bool :=
  match get k m with Some _ => true | None => false end.

Definition keys (m : list (string * V)) : list string := map fst m.
End Ops.
Arguments t V : clear implicits.
End JsMap.

(** A plain object.  Its own properties are kept in creation order (writing
    a present key keeps its place); enumeration lists the keys that are
    array indices first, in ascending numeric order, then the other keys in
    creation order. *)
Module JsObject.

Fixpoint parse_digits (acc : N) (s : string) : option N :=
  match s with
  | EmptyString => Some acc
  | String c s' =>
      let d := N_of_ascii c in
      if ((48 <=? d) && (d <=? 57))%N
      then parse_digits (10 * acc + (d - 48))%N s'
      else None
  end.

(** [Some n] when [s] is the canonical decimal form of an array index
    [n < 2^32 - 1]. *)
Definition array_index (s : string) : option N :=
  match s with
  | EmptyString => None
  | _ =>
      match parse_digits 0 s with
      | Some n =>
          if (n <? 4294967295)%N
             && String.eqb (NilZero.string_of_uint (N.to_uint n)) s
          then Some n else None
      | None => None
      end
  end.

Definition is_index (s : string) : bool :=
  match array_index s with Some _ => true | None => false end.

Section Ops.
Context {V : Type}.

Definition t := list (string * V).

(** Insert an index-keyed property into a list sorted by index. *)
Fixpoint insert_sorted (n : N) (kv : string * V) (l : list (N * (string * V)))
  : list (N * (string * V)) :=
  match l with
  | [] => [(n, kv)]
  | (n', kv') :: rest =>
      if (n <? n')%N then (n, kv) :: l else (n', kv') :: insert_sorted n kv rest
  end.

Fixpoint indexed (o : list (string * V)) : list (N * (string * V)) :=
  match o with
  | [] => []
  | (k, v) :: rest =>
      match array_index k with
      | Some n => insert_sorted n (k, v) (indexed rest)
      | None => indexed rest
      end
  end.

Definition named (o : list (string * V)) : list (string * V) :=
  List.filter (fun kv => negb (is_index (fst kv))) o.

(** [Object.entries(o)] *)
Definition entries (o : list (string * V)) : list (string * V) :=
  map snd (indexed o) ++ named o.

(** [Object.fromEntries(iterable)]: one property write per entry. *)
Definition fromEntries (l : list (string * V)) : list (string * V) :=
  fold_left (fun o kv => JsMap.set (fst kv) (snd kv) o) l [].
End Ops.
Arguments t V : clear implicits.
End JsObject.

(** ** class SSRDataStore *)

Module SSRDataStore.
Section Methods.
Context {V : Type}.

Record t := { store : JsMap.t V; isServer : bool }.

Definition constructor (window_defined : bool) : t :=
  {| store := []; isServer := negb window_defined |}.

Definition set (key : string) (data : V) (this : t) : t :=
  {| store := JsMap.set key data (store this); isServer := isServer this |}.

Definition get (key : string) (this : t) : option V :=
  JsMap.get key (store this).

Definition has (key : string) (this : t) : bool :=
  JsMap.has key (store this).

Definition getState (this : t) : JsObject.t V :=
  JsObject.fromEntries (store this).

(** [state] is [None] when the argument is falsy or not an object. *)
Definition setState (state : option (JsObject.t V)) (this : t) : t :=
  match state with
  | Some o =>
      fold_left (fun this kv => set (fst kv) (snd kv) this)
                (JsObject.entries o) this
  | None => this
  end.

Definition clear (this : t) : t :=
  {| store := []; isServer := isServer this |}.
End Methods.
Arguments t V : clear implicits.
End SSRDataStore.

(** ** httpPlugin *)

(** The host's [URL] class, which the source uses and does not define. *)
Record UrlHost := {
  (** [new URL(url, base).toString()]; [None] when the constructor throws *)
  URL_parse : string -> string -> option string;
  (** the URL after [searchParams.set(name, value)] *)
  URL_set_param : string -> string -> string -> string
}.

Module httpPlugin.

(** The [options] given to [install]. *)
Abbreviation install_options := HttpClient.ctor_options.

(** The JavaScript process: a heap of data-store objects, addressed by
    number, and the globals the plugin touches. *)
Record Process := {
  stores : gmap nat (SSRDataStore.t JsVal);
  in_browser : bool;
  window_SSR_DATA : option (JsObject.t JsVal);
  global_SSR_DATA : option nat
}.

(** What [install] leaves on the application: [$http] and [$ssrData], the
    second a reference to a store object. *)
Record App := {
  http : option HttpClient.t;
  ssrData : option nat
}.

Definition fresh (p : Process) : nat :=
  S (set_fold Nat.max 0%nat (dom (stores p))).

Definition update_store (l : nat)
    (f : SSRDataStore.t JsVal -> SSRDataStore.t JsVal) (p : Process) : Process :=
  {| stores := alter f l (stores p);
     in_browser := in_browser p;
     window_SSR_DATA := window_SSR_DATA p;
     global_SSR_DATA := global_SSR_DATA p |}.

(** The module body, evaluated once when the module is loaded:
    [const ssrDataStore = new SSRDataStore()].  Returns the reference that
    the name [ssrDataStore] is bound to. *)
Definition load (p : Process) : nat * Process :=
  let l := fresh p in
  (l, {| stores := <[l := SSRDataStore.constructor (in_browser p)]> (stores p);
         in_browser := in_browser p;
         window_SSR_DATA := window_SSR_DATA p;
         global_SSR_DATA := global_SSR_DATA p |}).

Definition getAuthToken : M Env (option string) :=
  gets (fun e => if window_defined e then localStorage e !! "auth_token" else None).

Definition clearAuthToken : M Env unit :=
  modify (fun e => if window_defined e
                   then set_localStorage (delete "auth_token" (localStorage e)) e
                   else e).

(** The default request interceptor's [fulfilled]. *)
Definition defaultRequestFulfilled (host : UrlHost) (config : Config.t)
  : M Env Config.t :=
  await config :=
    (if String.eqb (Config.method config) "GET"
        && match Config.timestamp config with Some false => false | _ => true end
     then
       match URL_parse host (HttpClient.or_string (Config.url config) "")
                            (HttpClient.or_string (Config.baseURL config) "") with
       | None => throw (TypeError "Invalid URL")
       | Some href =>
           await t := gets now in
           ret (Config.set_url config
                  (Some (URL_set_param host href "_t" (Str.of_Z t))))
       end
     else ret config) in
  await token := getAuthToken in
  ret (match token with
       | Some tk =>
           if Str.nonempty tk
           then Config.set_header config "Authorization" ("Bearer " +:+ tk)
           else config
       | None => config
       end).

(** [(error) => Promise.reject(error)] *)
Definition defaultRequestRejected (error : JsVal) : M Env JsVal := throw error.

(** The default response interceptor's [fulfilled]: it reads
    [response.status] and [response.config?.url] for its log line. *)
Definition defaultResponseFulfilled (response : JsVal) : M Env JsVal :=
  run prop response "status" in
  ret response.

(** The default response interceptor's [rejected]. *)
Definition defaultResponseRejected (error : JsVal) : M Env JsVal :=
  run prop error "message" in
  await status := prop error "status" in
  run (match status with
       | VNum 401 => clearAuthToken
       | _ => ret tt
       end) in
  throw error.

Definition setupDefaultInterceptors (host : UrlHost) (httpClient : HttpClient.t)
  : HttpClient.t :=
  HttpClient.addResponseInterceptor
    (Some defaultResponseFulfilled) (Some defaultResponseRejected)
    (HttpClient.addRequestInterceptor
       (Some (defaultRequestFulfilled host)) (Some defaultRequestRejected)
       httpClient).

(** [{ baseURL: options.baseURL || '/api', timeout: options.timeout || 10000,
      headers: options.headers || {}, ...options }]: the spread last, so a
    property [options] has is passed as it is. *)
Definition client_options (options : install_options) : HttpClient.ctor_options :=
  {| HttpClient.opt_baseURL :=
       Some (default "/api" (HttpClient.opt_baseURL options));
     HttpClient.opt_timeout :=
       Some (default 10000 (HttpClient.opt_timeout options));
     HttpClient.opt_headers :=
       Some (default ∅ (HttpClient.opt_headers options));
     HttpClient.opt_cacheTimeout := HttpClient.opt_cacheTimeout options;
     HttpClient.opt_retryCount := HttpClient.opt_retryCount options;
     HttpClient.opt_retryDelay := HttpClient.opt_retryDelay options |}.

(** [install(app, options)], in a module whose [ssrDataStore] is bound to
    the reference [ssrDataStore]. *)
Definition install (ssrDataStore : nat) (host : UrlHost) (app : App)
    (options : install_options) (p : Process) : App * Process :=
  let httpClient := HttpClient.constructor (client_options options) in
  let httpClient := setupDefaultInterceptors host httpClient in
  let app := {| http := Some httpClient; ssrData := Some ssrDataStore |} in
  if negb (in_browser p) then
    (app, {| stores := stores p; in_browser := in_browser p;
             window_SSR_DATA := window_SSR_DATA p;
             global_SSR_DATA := Some ssrDataStore |})
  else
    match window_SSR_DATA p with
    | Some state =>
        (app, update_store ssrDataStore (SSRDataStore.setState (Some state)) p)
    | None => (app, p)
    end.

(** [app.config.globalProperties.$ssrData.set(key, data)] *)
Definition ssrData_set (app : App) (key : string) (data : JsVal) (p : Process)
  : Process :=
  match ssrData app with
  | Some l => update_store l (SSRDataStore.set key data) p
  | None => p
  end.

(** [app.config.globalProperties.$ssrData.get(key)] *)
Definition ssrData_get (app : App) (key : string) (p : Process) : option JsVal :=
  l ← ssrData app; s ← stores p !! l; SSRDataStore.get key s.

(** [app.config.globalProperties.$ssrData.has(key)] *)
Definition ssrData_has (app : App) (key : string) (p : Process) : bool :=
  match ssrData app with
  | Some l =>
      match stores p !! l with
      | Some s => SSRDataStore.has key s
      | None => false
      end
  | None => false
  end.

(** The plugin module once it has been evaluated in a process: its
    top-level [const ssrDataStore] is bound, for as long as the process
    lives, to the store object created then. *)
Record Evaluated := { module_ssrDataStore : nat; process : Process }.

(** Evaluating the module (its first import). *)
Definition evaluate (p : Process) : Evaluated :=
  let (l, p') := load p in {| module_ssrDataStore := l; process := p' |}.

(** [httpPlugin.install(app, options)] as a caller writes it: the method
    reads [ssrDataStore] from the module's scope, the caller does not pass
    it. *)
Definition call_install (host : UrlHost) (app : App) (options : install_options)
    (m : Evaluated) : App * Evaluated :=
  let (a, p') := install (module_ssrDataStore m) host app options (process m) in
  (a, {| module_ssrDataStore := module_ssrDataStore m; process := p' |}).

(** The two entries [setupDefaultInterceptors] registers. *)
Definition default_request_stage (host : UrlHost) : Interceptor Config.t :=
  {| fulfilled := Some (defaultRequestFulfilled host);
     rejected := Some defaultRequestRejected |}.

Definition default_response_stage : Interceptor JsVal :=
  {| fulfilled := Some defaultResponseFulfilled;
     rejected := Some defaultResponseRejected |}.

End httpPlugin.

(** ** class VueAppManager (the application manager of the launcher) *)

Module VueAppManager.

(** A plugin object, as far as the manager looks at it. *)
Record Plugin := { name : option string; priority : option Z }.

(** [this.plugins] and [this.app]; [A] is the state of the Vue application
    object. *)
Record t (A : Type) := { plugins : list Plugin; app : option A }.
Arguments plugins {A} _.
Arguments app {A} _.

Definition constructor {A} : t A := {| plugins := []; app := None |}.

(** [createApp()]: the application is created once and then reused;
    [createSSRApp] is the application Vue builds. *)
Definition createApp {A} (createSSRApp : A) (this : t A) : A * t A :=
  match app this with
  | Some a => (a, this)
  | None => (createSSRApp, {| plugins := plugins this; app := Some createSSRApp |})
  end.

(** [p === plugin || p.name === plugin.name].  An object is identical to
    itself only, and then the names agree, so the test is the one on names;
    two missing names ([undefined === undefined]) are equal. *)
Definition same_plugin (p plugin : Plugin) : bool :=
  bool_decide (name p = name plugin).

(** [addPlugin(plugin)]; [None] is a falsy argument. *)
Definition addPlugin {A} (plugin : option Plugin) (this : t A) : t A :=
  match plugin with
  | None => this
  | Some plugin =>
      let exists_ := existsb (fun p => same_plugin p plugin) (plugins this) in
      if exists_ then this
      else {| plugins := plugins this ++ [plugin]; app := app this |}
  end.

(** [plugin.priority || 0] *)
Definition rank (p : Plugin) : Z :=
  match priority p with Some n => n | None => 0 end.

(** [Array.prototype.sort] with the comparator
    [(a, b) => (a.priority || 0) - (b.priority || 0)]: a stable sort. *)
Fixpoint insert_by_rank (p : Plugin) (l : list Plugin) : list Plugin :=
  match l with
  | [] => [p]
  | q :: rest =>
      if rank p <=? rank q then p :: q :: rest else q :: insert_by_rank p rest
  end.

Fixpoint sort (l : list Plugin) : list Plugin :=
  match l with
  | [] => []
  | p :: rest => insert_by_rank p (sort rest)
  end.

(** [registerPlugins()]: without an application nothing happens; otherwise
    [this.plugins] is sorted in place and [app.use(plugin)] is called on each
    plugin in turn, inside a [try] whose [catch] only logs.  [use] is Vue's
    [app.use], acting on the application's state. *)
Definition registerPlugins {A} (use : Plugin -> M A unit) (this : t A) : t A :=
  match app this with
  | None => this
  | Some a =>
      let sorted := sort (plugins this) in
      {| plugins := sorted;
         app := Some (fold_left
                        (fun a plugin =>
                           snd (try_catch (use plugin) (fun _ => ret tt) a))
                        sorted a) |}
  end.

Definition getApp {A} (this : t A) : option A := app this.

Definition destroy {A} (this : t A) : t A := {| plugins := []; app := None |}.

End VueAppManager.

(** ** src/SSR/plugins/http.js: the plugin whose [install] builds its own
    data store *)

Module HttpJs.

(** The constructor's [options]. *)
Record ctor_options := {
  opt_baseUrl : option string;
  opt_headers : option Headers;
  opt_timeout : option Z;
  opt_retryCount : option Z;
  opt_cacheTimeout : option Z
}.

Record HttpClient := {
  options : ctor_options;
  baseUrl : string;
  headers : Headers;
  timeout : Z;
  retryCount : Z;
  cache : gmap string JsVal;
  cacheTimeout : Z;
  interceptors_request : list (Interceptor JsVal);
  interceptors_response : list (Interceptor JsVal)
}.

Definition new_HttpClient (options : ctor_options) : HttpClient :=
  {| options := options;
     baseUrl := HttpClient.or_string (opt_baseUrl options) "/api";
     headers := default ∅ (opt_headers options);
     timeout := HttpClient.or_Z (opt_timeout options) 10000;
     retryCount := HttpClient.or_Z (opt_retryCount options) 2;
     cache := ∅;
     cacheTimeout := HttpClient.or_Z (opt_cacheTimeout options) (3 * 60 * 1000);
     interceptors_request := [];
     interceptors_response := [] |}.

Definition addResponseInterceptor
    (fulfilled rejected : option (JsVal -> M Env JsVal)) (this : HttpClient)
  : HttpClient :=
  {| options := options this; baseUrl := baseUrl this; headers := headers this;
     timeout := timeout this; retryCount := retryCount this;
     cache := cache this; cacheTimeout := cacheTimeout this;
     interceptors_request := interceptors_request this;
     interceptors_response :=
       interceptors_response this
         ++ [{| fulfilled := fulfilled; rejected := rejected |}] |}.

Definition addRequestInterceptor
    (fulfilled rejected : option (JsVal -> M Env JsVal)) (this : HttpClient)
  : HttpClient :=
  {| options := options this; baseUrl := baseUrl this; headers := headers this;
     timeout := timeout this; retryCount := retryCount this;
     cache := cache this; cacheTimeout := cacheTimeout this;
     interceptors_request :=
       interceptors_request this
         ++ [{| fulfilled := fulfilled; rejected := rejected |}];
     interceptors_response := interceptors_response this |}.

(** The data store of http.js: a [Map] in the field [data]. *)
Record SSRDataStore := { data : JsMap.t JsVal }.

Definition new_SSRDataStore : SSRDataStore := {| data := [] |}.

Definition set (key : string) (value : JsVal) (this : SSRDataStore) : SSRDataStore :=
  {| data := JsMap.set key value (data this) |}.

Definition get (key : string) (this : SSRDataStore) : option JsVal :=
  JsMap.get key (data this).

Definition has (key : string) (this : SSRDataStore) : bool :=
  JsMap.has key (data this).

Definition getState (this : SSRDataStore) : JsObject.t JsVal :=
  JsObject.fromEntries (data this).

(** [setState(state)] has no guard here: [Object.entries] of [null] or
    [undefined] ([None]) throws. *)
Definition setState (state : option (JsObject.t JsVal)) (this : SSRDataStore)
  : Completion unit * SSRDataStore :=
  match state with
  | Some o =>
      (Normal tt,
       fold_left (fun this kv => set (fst kv) (snd kv) this)
                 (JsObject.entries o) this)
  | None =>
      (Throw (TypeError "Cannot convert undefined or null to object"), this)
  end.

Definition clear (this : SSRDataStore) : SSRDataStore := {| data := [] |}.

(** The heap of store objects, and what [install] leaves on the
    application. *)
Record Process := { stores : gmap nat SSRDataStore }.

Record App := { http : option HttpClient; ssrData : option nat }.

Definition fresh (p : Process) : nat :=
  S (set_fold Nat.max 0%nat (dom (stores p))).

(** [install(app, options)]: a new client and a new store on every call;
    the four handlers only log. *)
Definition install (app : App) (options : ctor_options) (p : Process)
  : App * Process :=
  let httpClient := new_HttpClient options in
  let ssrDataStore := fresh p in
  let p := {| stores := <[ssrDataStore := new_SSRDataStore]> (stores p) |} in
  let httpClient :=
    addResponseInterceptor (Some (fun response => ret response))
                           (Some (fun error => throw error)) httpClient in
  let httpClient :=
    addRequestInterceptor (Some (fun config => ret config))
                          (Some (fun error => throw error)) httpClient in
  ({| http := Some httpClient; ssrData := Some ssrDataStore |}, p).

(** [app.config.globalProperties.$ssrData.set(key, value)] *)
Definition ssrData_set (app : App) (key : string) (value : JsVal) (p : Process)
  : Process :=
  match ssrData app with
  | Some l => {| stores := alter (set key value) l (stores p) |}
  | None => p
  end.

(** [app.config.globalProperties.$ssrData.get(key)] *)
Definition ssrData_get (app : App) (key : string) (p : Process) : option JsVal :=
  l ← ssrData app; s ← stores p !! l; get key s.

End HttpJs.

(** ** Sample inputs *)

Module Sample.

Definition response (status : Z) (statusText : string) : Response.t :=
  {| Response.status := status;
     Response.statusText := statusText;
     Response.headers := {[ "content-type" := "application/json" ]};
     Response.json := inl (VObject [("id", VNum 1)]);
     Response.text := inl (VStr "{}") |}.

(** A server process at time 1000. *)
Definition env0 : Env :=
  {| now := 1000; window_defined := false; localStorage := ∅ |}.

Definition world (network : nat -> string -> Config.t -> FetchOutcome) : World :=
  {| env := env0; fetch_log := []; network := network |}.

(** A network that always answers with the same status, after 10 ms. *)
Definition always (status : Z) (statusText : string)
  : nat -> string -> Config.t -> FetchOutcome :=
  fun _ _ _ => {| latency := 10; settles := inl (response status statusText) |}.

(** A network whose first two answers never arrive and whose third is a
    200. *)
Definition third_time_lucky : nat -> string -> Config.t -> FetchOutcome :=
  fun n _ _ =>
    if (n <? 2)%nat
    then {| latency := 60000; settles := inl (response 200 "OK") |}
    else {| latency := 10; settles := inl (response 200 "OK") |}.

Definition no_ctor_options : HttpClient.ctor_options :=
  {| HttpClient.opt_baseURL := None; HttpClient.opt_timeout := None;
     HttpClient.opt_headers := None; HttpClient.opt_cacheTimeout := None;
     HttpClient.opt_retryCount := None; HttpClient.opt_retryDelay := None |}.

(** [new HttpClient({ baseURL: '/api', headers: { 'X-Client': 'Vue-SSR' } })] *)
Definition client : HttpClient.t :=
  HttpClient.constructor
    {| HttpClient.opt_baseURL := Some "/api";
       HttpClient.opt_timeout := None;
       HttpClient.opt_headers := Some {[ "X-Client" := "Vue-SSR" ]};
       HttpClient.opt_cacheTimeout := None;
       HttpClient.opt_retryCount := None;
       HttpClient.opt_retryDelay := None |}.

Definition get_config : Config.t :=
  HttpClient.build_config client Options.empty.

(** A request interceptor whose [fulfilled] throws and whose [rejected]
    answers with a substitute config. *)
Definition fallback_config : Config.t :=
  Config.set_header get_config "X-Fallback" "yes".

Definition recovering : Interceptor Config.t :=
  {| fulfilled := Some (fun _ => throw (VStr "no token"));
     rejected := Some (fun _ => ret (VConfig fallback_config)) |}.

(** A request interceptor that marks the config it is given. *)
Definition marking : Interceptor Config.t :=
  {| fulfilled := Some (fun c => ret (Config.set_header c "X-Marked" "yes"));
     rejected := None |}.

(** [{ method: 'PATCH', headers: { 'Custom-Header': 'value' }, cache: false }] *)
Definition custom_options : Options.t :=
  {| Options.method := Some "PATCH";
     Options.headers := Some {[ "Custom-Header" := "value" ]};
     Options.body := None;
     Options.cache := Some false;
     Options.cacheTimeout := None;
     Options.url := None;
     Options.baseURL := None;
     Options.timestamp := None |}.

Definition state (this : HttpClient.t)
    (network : nat -> string -> Config.t -> FetchOutcome) : HttpClient.St :=
  {| HttpClient.this := this; HttpClient.world := world network |}.

(** The [init] objects handed to [fetch] during a call. *)
Definition dispatched (r : Completion JsVal * HttpClient.St) : list Config.t :=
  map snd (fetch_log (HttpClient.world (snd r))).

(** A value cached at time 1000 under the key of [GET /api/data]. *)
Definition cached_value : JsVal := VObject [("cached", VBool true)].

Definition warm_client : HttpClient.t :=
  HttpClient.set_cache
    {[ "GET:/api/data:" := {| data := cached_value; timestamp := 1000 |} ]}
    client.

(** The same server process, at time [t]. *)
Definition state_at (t : Z) (this : HttpClient.t)
    (network : nat -> string -> Config.t -> FetchOutcome) : HttpClient.St :=
  {| HttpClient.this := this;
     HttpClient.world := {| env := set_now t env0; fetch_log := [];
                            network := network |} |}.

(** [{ cacheTimeout: ttl }] *)
Definition with_ttl (ttl : Z) : Options.t :=
  {| Options.method := None; Options.headers := None; Options.body := None;
     Options.cache := None; Options.cacheTimeout := Some ttl;
     Options.url := None; Options.baseURL := None; Options.timestamp := None |}.

(** A producer that stored ["b"] first and ["1"] second. *)
Definition producer : SSRDataStore.t JsVal :=
  SSRDataStore.set "1" (VStr "one")
    (SSRDataStore.set "b" (VStr "bee") (SSRDataStore.constructor false)).

(** The store of scenario 3, and a second key. *)
Definition prefetched : SSRDataStore.t JsVal :=
  SSRDataStore.set "posts" (VObject [])
    (SSRDataStore.set "user" (VObject [("id", VNum 1)])
       (SSRDataStore.constructor false)).

(** A host whose [URL] accepts an absolute base only. *)
Definition host : UrlHost :=
  {| URL_parse := fun u b => if Str.startsWith b "http" then Some (b +:+ u) else None;
     URL_set_param := fun href k v => href +:+ "?" +:+ k +:+ "=" +:+ v |}.

(** A server process, before the plugin module is loaded. *)
Definition server : httpPlugin.Process :=
  {| httpPlugin.stores := ∅; httpPlugin.in_browser := false;
     httpPlugin.window_SSR_DATA := None; httpPlugin.global_SSR_DATA := None |}.

Definition bare_app : httpPlugin.App :=
  {| httpPlugin.http := None; httpPlugin.ssrData := None |}.

(** The client [install] builds when given no options. *)
Definition installed_client (host : UrlHost) : HttpClient.t :=
  httpPlugin.setupDefaultInterceptors host
    (HttpClient.constructor (httpPlugin.client_options no_ctor_options)).

(** What a GET on [client] returns when the network answers 200. *)
Definition result : JsVal :=
  VResult (VObject [("id", VNum 1)]) 200 "OK"
          {[ "content-type" := "application/json" ]} get_config.

(** [{ url: '/user', baseURL: 'http://localhost:3000' }] *)
Definition with_url : Options.t :=
  {| Options.method := None; Options.headers := None; Options.body := None;
     Options.cache := None; Options.cacheTimeout := None;
     Options.url := Some "/user";
     Options.baseURL := Some "http://localhost:3000";
     Options.timestamp := None |}.

(** [new HttpClient({ retryCount: 0 })] is built from these. *)
Definition no_retries : HttpClient.ctor_options :=
  {| HttpClient.opt_baseURL := None; HttpClient.opt_timeout := None;
     HttpClient.opt_headers := None; HttpClient.opt_cacheTimeout := None;
     HttpClient.opt_retryCount := Some 0; HttpClient.opt_retryDelay := None |}.

(** [new HttpClient({ retryCount: -1 })] is built from these. *)
Definition negative_retries : HttpClient.ctor_options :=
  {| HttpClient.opt_baseURL := None; HttpClient.opt_timeout := None;
     HttpClient.opt_headers := None; HttpClient.opt_cacheTimeout := None;
     HttpClient.opt_retryCount := Some (-1); HttpClient.opt_retryDelay := None |}.

(** A browser at time 1000 whose [localStorage] holds a token. *)
Definition browser_env : Env :=
  {| now := 1000; window_defined := true;
     localStorage := {[ "auth_token" := "abc" ]} |}.

Definition browser_state (this : HttpClient.t)
    (network : nat -> string -> Config.t -> FetchOutcome) : HttpClient.St :=
  {| HttpClient.this := this;
     HttpClient.world := {| env := browser_env; fetch_log := [];
                            network := network |} |}.

(** A browser whose page carries [{ user: 1 }] and whose store, already
    loaded at address 1, has been given another [user] and a [draft]. *)
Definition hydrating_browser : httpPlugin.Process :=
  {| httpPlugin.stores :=
       {[ 1%nat := SSRDataStore.set "draft" (VStr "x")
                     (SSRDataStore.set "user" (VNum 2)
                        (SSRDataStore.constructor true)) ]};
     httpPlugin.in_browser := true;
     httpPlugin.window_SSR_DATA := Some [("user", VNum 1)];
     httpPlugin.global_SSR_DATA := None |}.

(** A manager with an application whose state is the list of the plugin
    names used so far, and two plugins: the HTTP plugin (priority 1) and,
    added after it, one without a priority. *)
Definition http_plugin : VueAppManager.Plugin :=
  {| VueAppManager.name := Some "HttpPlugin"; VueAppManager.priority := Some 1 |}.

Definition plain_plugin : VueAppManager.Plugin :=
  {| VueAppManager.name := Some "plain"; VueAppManager.priority := None |}.

Definition manager : VueAppManager.t (list (option string)) :=
  VueAppManager.addPlugin (Some plain_plugin)
    (VueAppManager.addPlugin (Some http_plugin)
       (snd (VueAppManager.createApp [] VueAppManager.constructor))).

(** An [app.use] that notes the plugin's name and then throws. *)
Definition failing_use (p : VueAppManager.Plugin) : M (list (option string)) unit :=
  fun used => (Throw (VStr "install failed"), used ++ [VueAppManager.name p]).

Definition no_http_js_options : HttpJs.ctor_options :=
  {| HttpJs.opt_baseUrl := None; HttpJs.opt_headers := None;
     HttpJs.opt_timeout := None; HttpJs.opt_retryCount := None;
     HttpJs.opt_cacheTimeout := None |}.

Definition http_js_app : HttpJs.App :=
  {| HttpJs.http := None; HttpJs.ssrData := None |}.

Definition http_js_cycle1 : HttpJs.App * HttpJs.Process :=
  HttpJs.install http_js_app no_http_js_options {| HttpJs.stores := ∅ |}.

Definition http_js_cycle2 : HttpJs.App * HttpJs.Process :=
  HttpJs.install http_js_app no_http_js_options (snd http_js_cycle1).

(** Two render cycles on the server, as the launcher runs them: the module
    is evaluated once, then each cycle calls [httpPlugin.install] on an
    application of its own. *)
Definition render1 : httpPlugin.App * httpPlugin.Evaluated :=
  httpPlugin.call_install host bare_app no_ctor_options
    (httpPlugin.evaluate server).
Definition render2 : httpPlugin.App * httpPlugin.Evaluated :=
  httpPlugin.call_install host bare_app no_ctor_options (snd render1).

(** A client whose cache holds the number 0 for [GET /api/data]. *)
Definition zero_client : HttpClient.t :=
  HttpClient.set_cache
    {[ "GET:/api/data:" := {| data := VNum 0; timestamp := 1000 |} ]}
    client.

End Sample.

(** * Properties *)

(** ** Retry *)

Section Retry.

Import HttpClient.

(** [requestWithRetry], as the source spells it. *)
Lemma requestWithRetry_unfold this url options retryCount w :
  requestWithRetry this url options retryCount w =
  match attempt this url options w with
  | (inl response, w1) => (Normal response, w1)
  | (inr error, w1) =>
      if (retryCount <? HttpClient.retryCount this)%nat && shouldRetry error
      then requestWithRetry this url options (S retryCount)
             (snd (delay (retryDelay this) w1))
      else (Throw (VError error), w1)
  end.
Proof.
  rewrite requestWithRetry_equation_1.
  destruct (attempt this url options w) as [[response | error] w1]; simpl.
  - reflexivity.
  - destruct (lt_dec retryCount (HttpClient.retryCount this)) as [Hlt | Hge]; simpl.
    + rewrite (proj2 (Nat.ltb_lt _ _) Hlt). simpl.
      destruct (shouldRetry error); reflexivity.
    + rewrite (proj2 (Nat.ltb_nlt _ _) Hge). reflexivity.
Qed.

Lemma attempt_spec this url options w :
  exists ms,
    attempt this url options w =
      (nth_outcome this url options w 0,
       elapse ms (log_fetch url options w)).
Proof.
  unfold attempt, nth_outcome. rewrite Nat.add_0_r.
  destruct (settle this _) as [r ms]. exists ms. reflexivity.
Qed.

Lemma nth_outcome_next this url options w ms d i :
  nth_outcome this url options
    (snd (delay d (elapse ms (log_fetch url options w)))) i
  = nth_outcome this url options w (S i).
Proof.
  unfold nth_outcome. simpl. rewrite length_app. simpl.
  replace (length (fetch_log w) + 1 + i)%nat
    with (length (fetch_log w) + S i)%nat by lia.
  reflexivity.
Qed.

(** After [k] retryable failures within budget, a success ends the call
    after exactly [k + 1] dispatches. *)
Lemma retry_until_success this url options response :
  forall k retryCount w,
    (retryCount + k <= HttpClient.retryCount this)%nat ->
    (forall i, (i < k)%nat ->
       exists e, nth_outcome this url options w i = inr e /\ shouldRetry e = true) ->
    nth_outcome this url options w k = inl response ->
    exists w',
      requestWithRetry this url options retryCount w = (Normal response, w')
      /\ fetch_log w' = fetch_log w ++ repeat (url, options) (S k)
      /\ network w' = network w.
Proof.
  induction k as [| k IH]; intros r w Hbudget Hfail Hok;
    rewrite requestWithRetry_unfold;
    destruct (attempt_spec this url options w) as [ms ->].
  - rewrite Hok. eexists. split; [reflexivity |]. split; reflexivity.
  - destruct (Hfail 0%nat ltac:(lia)) as (e & -> & Hretry).
    rewrite Hretry, (proj2 (Nat.ltb_lt r _)) by lia. simpl andb. cbv iota.
    destruct (IH (S r)
                (snd (delay (retryDelay this) (elapse ms (log_fetch url options w)))))
      as (w' & Hrun & Hlog & Hnet).
    + lia.
    + intros i Hi. rewrite nth_outcome_next. apply Hfail. lia.
    + rewrite nth_outcome_next. exact Hok.
    + exists w'. split; [exact Hrun |]. split.
      * rewrite Hlog. simpl. rewrite <- app_assoc. reflexivity.
      * rewrite Hnet. reflexivity.
Qed.

(** When every attempt fails retryably, the budget is used up: one dispatch
    per remaining retry plus one, and the last error is thrown. *)
Lemma retry_exhausted this url options :
  forall n retryCount w last,
    (HttpClient.retryCount this - retryCount = n)%nat ->
    (forall i, (i < n)%nat ->
       exists e, nth_outcome this url options w i = inr e /\ shouldRetry e = true) ->
    nth_outcome this url options w n = inr last ->
    exists w',
      requestWithRetry this url options retryCount w = (Throw (VError last), w')
      /\ fetch_log w' = fetch_log w ++ repeat (url, options) (S n)
      /\ network w' = network w.
Proof.
  induction n as [| n IH]; intros r w last Hn Hfail Hlast;
    rewrite requestWithRetry_unfold;
    destruct (attempt_spec this url options w) as [ms ->].
  - rewrite Hlast, (proj2 (Nat.ltb_nlt r _)) by lia. simpl.
    eexists. split; [reflexivity |]. split; reflexivity.
  - destruct (Hfail 0%nat ltac:(lia)) as (e & -> & Hretry).
    rewrite Hretry, (proj2 (Nat.ltb_lt r _)) by lia. simpl andb. cbv iota.
    destruct (IH (S r)
                (snd (delay (retryDelay this) (elapse ms (log_fetch url options w))))
                last)
      as (w' & Hrun & Hlog & Hnet).
    + lia.
    + intros i Hi. rewrite nth_outcome_next. apply Hfail. lia.
    + rewrite nth_outcome_next. exact Hlast.
    + exists w'. split; [exact Hrun |]. split.
      * rewrite Hlog. simpl. rewrite <- app_assoc. reflexivity.
      * rewrite Hnet. reflexivity.
Qed.

(** Whatever the network does, [requestWithRetry] only ever fetches the
    [url] and [options] it was given, at least once and at most
    [this.retryCount - retryCount + 1] times. *)
Lemma requestWithRetry_log this url options :
  forall n retryCount w,
    (HttpClient.retryCount this - retryCount = n)%nat ->
    exists k,
      (k <= n)%nat
      /\ fetch_log (snd (requestWithRetry this url options retryCount w))
         = fetch_log w ++ repeat (url, options) (S k)
      /\ network (snd (requestWithRetry this url options retryCount w)) = network w.
Proof.
  induction n as [| n IH]; intros r w Hn;
    rewrite requestWithRetry_unfold;
    destruct (attempt_spec this url options w) as [ms ->];
    destruct (nth_outcome this url options w 0) as [response | e].
  - exists 0%nat. simpl. auto.
  - rewrite (proj2 (Nat.ltb_nlt r _)) by lia. exists 0%nat. simpl. auto.
  - exists 0%nat. simpl. split; [lia | auto].
  - destruct ((r <? HttpClient.retryCount this)%nat && shouldRetry e).
    + destruct (IH (S r)
                  (snd (delay (retryDelay this) (elapse ms (log_fetch url options w)))))
        as (k & Hk & Hlog & Hnet); [lia |].
      exists (S k). split; [lia |]. split.
      * rewrite Hlog. simpl. rewrite <- app_assoc. reflexivity.
      * rewrite Hnet. reflexivity.
    + exists 0%nat. simpl. split; [lia | auto].
Qed.

(** C7. When a call's first [k] attempts fail with retryable errors and
    [k <= retryCount], then: if [k = retryCount] and attempt [k + 1] fails
    too, exactly [1 + retryCount] attempts were made and that last error is
    what is thrown; and if attempt [k + 1] succeeds, its response is
    returned after exactly [k + 1] attempts. *)
Theorem retry_attempts_exact this url options w k :
  (k <= HttpClient.retryCount this)%nat ->
  (forall i, (i < k)%nat ->
     exists e, nth_outcome this url options w i = inr e /\ shouldRetry e = true) ->
  (k = HttpClient.retryCount this ->
   forall last, nth_outcome this url options w k = inr last ->
     exists w',
       requestWithRetry this url options 0 w = (Throw (VError last), w')
       /\ fetch_log w'
          = fetch_log w ++ repeat (url, options) (1 + HttpClient.retryCount this))
  /\
  (forall response, nth_outcome this url options w k = inl response ->
     exists w',
       requestWithRetry this url options 0 w = (Normal response, w')
       /\ fetch_log w' = fetch_log w ++ repeat (url, options) (1 + k)).
Proof.
  intros Hk Hfail. split.
  - intros -> last Hlast.
    destruct (retry_exhausted this url options (HttpClient.retryCount this)
                0%nat w last) as (w' & Hrun & Hlog & _); auto with lia.
    exists w'. split; assumption.
  - intros response Hok.
    destruct (retry_until_success this url options response k 0%nat w)
      as (w' & Hrun & Hlog & _); auto.
    exists w'. split; assumption.
Qed.

(** Two timeouts, then a 200: the caller gets the response after exactly
    three dispatches. *)
Lemma retry_attempts_exact_witness :
  exists w',
    requestWithRetry Sample.client "/api/user" Sample.get_config 0
      (Sample.world Sample.third_time_lucky)
    = (Normal (Sample.response 200 "OK"), w')
    /\ fetch_log w' = repeat ("/api/user", Sample.get_config) 3.
Proof.
  refine (proj2 (retry_attempts_exact Sample.client "/api/user" Sample.get_config
                   (Sample.world Sample.third_time_lucky) 2 _ _)
                (Sample.response 200 "OK") _).
  - vm_compute. lia.
  - intros i Hi. exists AbortError.
    destruct i as [| [| i]]; [split; reflexivity | split; reflexivity | lia].
  - reflexivity.
Defined.

End Retry.

(** C2. A 405 answer is retried: its error message, "HTTP 405: Method Not
    Allowed", contains the character 5, so [shouldRetry] accepts it and the
    whole retry budget is spent on a client-class failure. *)
Theorem client_error_405_is_retried :
  HttpClient.shouldRetry
    (HttpClient.HttpError (Sample.response 405 "Method Not Allowed")) = true
  /\ exists w',
       HttpClient.requestWithRetry Sample.client "/api/user" Sample.get_config 0
         (Sample.world (Sample.always 405 "Method Not Allowed"))
       = (Throw (VError (HttpClient.HttpError
                           (Sample.response 405 "Method Not Allowed"))), w')
       /\ length (fetch_log w') = 4%nat.
Proof.
  split; [reflexivity |].
  eexists. split; [vm_compute; reflexivity | reflexivity].
Qed.

(** A 404 whose status text has no 5 in it is not retried. *)
Lemma client_error_404_is_not_retried :
  HttpClient.shouldRetry (HttpClient.HttpError (Sample.response 404 "Not Found"))
  = false.
Proof. reflexivity. Qed.

(** ** Interceptor chains *)

Section Chains.

Import HttpClient.

Context {A : Type}.

Lemma runInterceptors_app (l1 l2 : list (Interceptor A)) x e :
  runInterceptors (l1 ++ l2) x e =
  match runInterceptors l1 x e with
  | (Normal x1, e1) => runInterceptors l2 x1 e1
  | (Throw err, e1) => (Throw err, e1)
  end.
Proof.
  revert x e. induction l1 as [| s l1 IH]; intros x e; simpl.
  - reflexivity.
  - unfold bind. destruct (stage s x e) as [[x1 | err] e1].
    + apply IH.
    + reflexivity.
Qed.

(** C3, as the code has it.  When the [fulfilled] handler of a stage throws,
    the chain stops there, whatever the stages after it are: with a
    [rejected] handler, the handler is called with the error and what it
    returns is thrown (if it throws itself, that is thrown); without one,
    the error is thrown as it is. *)
Theorem failed_stage_halts_chain
    (before : list (Interceptor A)) (s : Interceptor A)
    (after : list (Interceptor A)) x e x1 e1 f err e2 :
  runInterceptors before x e = (Normal x1, e1) ->
  fulfilled s = Some f ->
  f x1 e1 = (Throw err, e2) ->
  runInterceptors (before ++ s :: after) x e =
  match rejected s with
  | Some r =>
      match r err e2 with
      | (Normal v, e3) => (Throw v, e3)
      | (Throw err', e3) => (Throw err', e3)
      end
  | None => (Throw err, e2)
  end.
Proof.
  intros Hbefore Hf Hthrow.
  rewrite runInterceptors_app, Hbefore. simpl.
  unfold bind at 1, stage, try_catch. rewrite Hf, Hthrow.
  destruct (rejected s) as [r |]; [| reflexivity].
  unfold bind, throw. destruct (r err e2) as [[v | err'] e3]; reflexivity.
Qed.

End Chains.

(** The handler's substitute config is thrown, and the marking stage after
    it never runs. *)
Lemma failed_stage_halts_chain_witness :
  HttpClient.runInterceptors [Sample.recovering; Sample.marking]
    Sample.get_config Sample.env0
  = (Throw (VConfig Sample.fallback_config), Sample.env0).
Proof.
  exact (failed_stage_halts_chain [] Sample.recovering [Sample.marking]
           Sample.get_config Sample.env0 Sample.get_config Sample.env0
           (fun _ => throw (VStr "no token")) (VStr "no token") Sample.env0
           eq_refl eq_refl eq_refl).
Defined.

(** C3, as the specification has it, fails: the chain does not resume from
    the value a [rejected] handler returns. *)
Lemma recovery_does_not_resume :
  ~ HttpClient.recovery_resumes HttpClient.config_of_value
      [] Sample.recovering [Sample.marking] Sample.get_config Sample.env0.
Proof.
  intros H.
  specialize (H Sample.get_config Sample.env0
                (fun _ => throw (VStr "no token")) (VStr "no token") Sample.env0
                (fun _ => ret (VConfig Sample.fallback_config))
                (VConfig Sample.fallback_config) Sample.env0
                Sample.fallback_config
                eq_refl eq_refl eq_refl eq_refl eq_refl eq_refl).
  discriminate H.
Qed.

(** ** Building the config *)

(** When the call has a [headers] option, the final [...options] puts that
    very object in [config.headers], in place of the merged one. *)
Lemma build_config_headers_given this options h :
  Options.headers options = Some h ->
  Config.headers (HttpClient.build_config this options) = h.
Proof. intros H. unfold HttpClient.build_config. simpl. rewrite H. reflexivity. Qed.

(** Without a [headers] option the defaults are used, over the built-in
    content type. *)
Lemma build_config_headers_default this options :
  Options.headers options = None ->
  Config.headers (HttpClient.build_config this options)
  = HttpClient.headers this ∪ {[ "Content-Type" := "application/json" ]}.
Proof.
  intros H. unfold HttpClient.build_config. simpl. rewrite H. simpl.
  apply (left_id_L ∅ (∪)).
Qed.

(** C4. A call with per-call headers, on a client whose default headers are
    [{ 'X-Client': 'Vue-SSR' }]: the one config dispatched carries the
    per-call header and neither the default header nor the content type. *)
Theorem per_call_headers_drop_defaults :
  exists config,
    Sample.dispatched
      (HttpClient.request "/custom" Sample.custom_options
         (Sample.state Sample.client (Sample.always 200 "OK")))
    = [config]
    /\ Config.headers config = {[ "Custom-Header" := "value" ]}
    /\ Config.headers config !! "X-Client" = None
    /\ Config.headers config !! "Content-Type" = None.
Proof.
  eexists. split; [vm_compute; reflexivity |].
  split; [| split]; reflexivity.
Qed.

(** ** The cache *)

Section Cache.

Import HttpClient.

(** An entry younger than [this.cacheTimeout] is returned and the cache is
    left as it is. *)
Lemma getCache_fresh cacheKey (s : St) entry :
  cache (this s) !! cacheKey = Some entry ->
  now (env (world s)) - timestamp entry < cacheTimeout (this s) ->
  getCache cacheKey s = (Normal (data entry), s).
Proof.
  intros Hin Hage. unfold getCache, bind, gets, Date_now. simpl. rewrite Hin.
  rewrite (proj2 (Z.ltb_lt _ _) Hage). reflexivity.
Qed.

(** An entry as old as [this.cacheTimeout] or older is deleted and [null]
    is returned. *)
Lemma getCache_expired cacheKey (s : St) entry :
  cache (this s) !! cacheKey = Some entry ->
  cacheTimeout (this s) <= now (env (world s)) - timestamp entry ->
  getCache cacheKey s
  = (Normal VNull,
     {| this := set_cache (delete cacheKey (cache (this s))) (this s);
        world := world s |}).
Proof.
  intros Hin Hage. unfold getCache, bind, gets, Date_now. simpl. rewrite Hin.
  rewrite (proj2 (Z.ltb_ge _ _) Hage). reflexivity.
Qed.

Lemma getCache_absent cacheKey (s : St) :
  cache (this s) !! cacheKey = None ->
  getCache cacheKey s
  = (Normal VNull,
     {| this := set_cache (delete cacheKey (cache (this s))) (this s);
        world := world s |}).
Proof.
  intros Hin. unfold getCache, bind, gets, Date_now. simpl. rewrite Hin.
  reflexivity.
Qed.

End Cache.

(** C5. The per-request [cacheTimeout] is not consulted.  With the store's
    default of five minutes and an entry cached at time 1000:
    - at time 401000 a call with [cacheTimeout: 600000] finds the entry
      (400 s old, younger than its ten minutes) expired: it goes to the
      network and the entry is replaced;
    - at time 121000 a call with [cacheTimeout: 60000] is served the entry
      (120 s old, older than its one minute) from the cache. *)
Theorem per_request_ttl_is_ignored :
  (let r := HttpClient.get "/data" (Sample.with_ttl 600000)
              (Sample.state_at 401000 Sample.warm_client (Sample.always 200 "OK")) in
   length (Sample.dispatched r) = 1%nat
   /\ fst r <> Normal Sample.cached_value
   /\ (timestamp <$> HttpClient.cache (HttpClient.this (snd r)) !! "GET:/api/data:")
      = Some 401010)
  /\
  (let r := HttpClient.get "/data" (Sample.with_ttl 60000)
              (Sample.state_at 121000 Sample.warm_client (Sample.always 200 "OK")) in
   Sample.dispatched r = []
   /\ fst r = Normal Sample.cached_value).
Proof.
  split; cbv zeta.
  - split; [vm_compute; reflexivity |].
    split; [vm_compute; discriminate | vm_compute; reflexivity].
  - split; vm_compute; reflexivity.
Qed.

(** ** Maps and objects *)

Section Containers.

Context {V : Type}.
Implicit Types (m o l : list (string * V)) (k : string) (v : V).

Lemma JsMap_get_set_eq k v m : JsMap.get k (JsMap.set k v m) = Some v.
Proof.
  induction m as [| [k' v'] m IH]; simpl.
  - rewrite String.eqb_refl. reflexivity.
  - destruct (String.eqb k' k) eqn:E; simpl.
    + rewrite String.eqb_refl. reflexivity.
    + rewrite E. exact IH.
Qed.

Lemma JsMap_get_set_ne k k' v m :
  k <> k' -> JsMap.get k' (JsMap.set k v m) = JsMap.get k' m.
Proof.
  intros Hne. induction m as [| [k0 v0] m IH]; simpl.
  - destruct (String.eqb k k') eqn:E; [| reflexivity].
    apply String.eqb_eq in E. contradiction.
  - destruct (String.eqb k0 k) eqn:E; simpl.
    + apply String.eqb_eq in E. subst k0.
      destruct (String.eqb k k') eqn:E'; [| reflexivity].
      apply String.eqb_eq in E'. contradiction.
    + rewrite IH. reflexivity.
Qed.

(** Writing a key the map does not have appends the entry. *)
Lemma JsMap_set_new k v m :
  k ∉ JsMap.keys m -> JsMap.set k v m = m ++ [(k, v)].
Proof.
  induction m as [| [k' v'] m IH]; simpl; intros Hnew.
  - reflexivity.
  - destruct (String.eqb k' k) eqn:E.
    + apply String.eqb_eq in E. subst k'. exfalso. apply Hnew. left.
    + rewrite IH; [reflexivity |]. intros Hin. apply Hnew. right. exact Hin.
Qed.

Lemma JsMap_keys_set k v m :
  JsMap.keys (JsMap.set k v m)
  = if bool_decide (k ∈ JsMap.keys m) then JsMap.keys m else JsMap.keys m ++ [k].
Proof.
  induction m as [| [k' v'] m IH]; simpl.
  - reflexivity.
  - destruct (String.eqb k' k) eqn:E; simpl.
    + apply String.eqb_eq in E. subst k'.
      rewrite bool_decide_eq_true_2 by left. reflexivity.
    + apply String.eqb_neq in E. rewrite IH.
      destruct (bool_decide (k ∈ JsMap.keys m)) eqn:B.
      * apply bool_decide_eq_true_1 in B.
        rewrite bool_decide_eq_true_2 by (right; exact B). reflexivity.
      * apply bool_decide_eq_false_1 in B.
        rewrite bool_decide_eq_false_2; [reflexivity |].
        intros Hin. apply elem_of_cons in Hin as [-> | Hin]; contradiction.
Qed.

(** A map keeps one entry per key, whatever is written to it. *)
Lemma JsMap_set_NoDup k v m :
  NoDup (JsMap.keys m) -> NoDup (JsMap.keys (JsMap.set k v m)).
Proof.
  intros Hm. rewrite JsMap_keys_set.
  destruct (bool_decide (k ∈ JsMap.keys m)) eqn:B; [exact Hm |].
  apply bool_decide_eq_false_1 in B.
  apply NoDup_app. split; [exact Hm |]. split.
  - intros x Hx Hx'. apply list_elem_of_singleton in Hx'. subst x. contradiction.
  - apply NoDup_singleton.
Qed.

(** Writing entries with distinct new keys, one by one, appends them. *)
Lemma fold_set_fresh l :
  forall m,
    NoDup (JsMap.keys l) ->
    (forall k, k ∈ JsMap.keys l -> k ∉ JsMap.keys m) ->
    fold_left (fun o kv => JsMap.set (fst kv) (snd kv) o) l m = m ++ l.
Proof.
  induction l as [| [k v] l IH]; intros m Hnd Hfresh; simpl.
  - rewrite app_nil_r. reflexivity.
  - simpl in Hnd. apply NoDup_cons in Hnd as [Hk Hnd].
    rewrite JsMap_set_new by (apply Hfresh; left).
    rewrite IH.
    + rewrite <- app_assoc. reflexivity.
    + exact Hnd.
    + intros k' Hk' Hin. unfold JsMap.keys in Hin.
      rewrite map_app in Hin. apply elem_of_app in Hin as [Hin | Hin].
      * apply (Hfresh k'); [right; exact Hk' | exact Hin].
      * simpl in Hin. apply list_elem_of_singleton in Hin. subst k'. contradiction.
Qed.

Lemma fromEntries_id l :
  NoDup (JsMap.keys l) -> JsObject.fromEntries l = l.
Proof.
  intros Hnd. unfold JsObject.fromEntries. rewrite fold_set_fresh; auto.
  intros k _ Hin. inversion Hin.
Qed.

(** In a map, [get] finds exactly the entries. *)
Lemma JsMap_get_Some k v m :
  NoDup (JsMap.keys m) -> JsMap.get k m = Some v <-> (k, v) ∈ m.
Proof.
  induction m as [| [k' v'] m IH]; simpl; intros Hnd.
  - split; [discriminate | intros H; inversion H].
  - apply NoDup_cons in Hnd as [Hk Hnd].
    destruct (String.eqb k' k) eqn:E.
    + apply String.eqb_eq in E. subst k'. split.
      * intros [= ->]. left.
      * intros Hin. apply elem_of_cons in Hin as [[= ->] | Hin]; [reflexivity |].
        exfalso. apply Hk. apply list_elem_of_fmap. exists (k, v). auto.
    + apply String.eqb_neq in E. rewrite IH by exact Hnd. split.
      * intros Hin. right. exact Hin.
      * intros Hin. apply elem_of_cons in Hin as [[= -> ->] | Hin];
          [contradiction | exact Hin].
Qed.

Lemma insert_sorted_perm n (kv : string * V) (l : list (N * (string * V))) :
  JsObject.insert_sorted n kv l ≡ₚ (n, kv) :: l.
Proof.
  induction l as [| [n' kv'] l IH]; simpl.
  - reflexivity.
  - destruct (n <? n')%N; [reflexivity |].
    rewrite IH. apply Permutation_swap.
Qed.

Lemma indexed_perm o :
  map snd (JsObject.indexed o)
  ≡ₚ List.filter (fun kv => JsObject.is_index (fst kv)) o.
Proof.
  induction o as [| [k v] o IH]; simpl.
  - reflexivity.
  - unfold JsObject.is_index at 1. simpl.
    destruct (JsObject.array_index k) as [n |].
    + rewrite (Permutation_map snd (insert_sorted_perm n (k, v) _)). simpl.
      rewrite IH. reflexivity.
    + exact IH.
Qed.

Lemma filter_split (f : string * V -> bool) l :
  List.filter f l ++ List.filter (fun x => negb (f x)) l ≡ₚ l.
Proof.
  induction l as [| x l IH]; simpl.
  - reflexivity.
  - destruct (f x); simpl.
    + rewrite IH. reflexivity.
    + rewrite <- Permutation_middle. rewrite IH. reflexivity.
Qed.

(** [Object.entries] lists every property once. *)
Lemma entries_perm o : JsObject.entries o ≡ₚ o.
Proof.
  unfold JsObject.entries, JsObject.named.
  rewrite indexed_perm. apply filter_split.
Qed.

Lemma indexed_none o :
  Forall (fun k => JsObject.is_index k = false) (JsMap.keys o) ->
  JsObject.indexed o = [].
Proof.
  induction o as [| [k v] o IH]; simpl; intros Hall; [reflexivity |].
  apply Forall_cons in Hall as [Hk Hall]. unfold JsObject.is_index in Hk.
  destruct (JsObject.array_index k); [discriminate | auto].
Qed.

Lemma named_all o :
  Forall (fun k => JsObject.is_index k = false) (JsMap.keys o) ->
  JsObject.named o = o.
Proof.
  unfold JsObject.named.
  induction o as [| [k v] o IH]; simpl; intros Hall; [reflexivity |].
  apply Forall_cons in Hall as [Hk Hall]. rewrite Hk. simpl.
  rewrite IH by exact Hall. reflexivity.
Qed.

(** With no array-index key, [Object.entries] keeps the creation order. *)
Lemma entries_named o :
  Forall (fun k => JsObject.is_index k = false) (JsMap.keys o) ->
  JsObject.entries o = o.
Proof.
  intros Hall. unfold JsObject.entries.
  rewrite indexed_none, named_all by exact Hall. reflexivity.
Qed.

End Containers.

(** ** The data store across the process boundary *)

Section Hydration.

Context {V : Type}.

(** Every store a program can build keeps one entry per key. *)
Lemma store_keys_NoDup_constructor (window_defined : bool) :
  NoDup (JsMap.keys (SSRDataStore.store
                       (SSRDataStore.constructor (V := V) window_defined))).
Proof. apply NoDup_nil_2. Qed.

Lemma store_keys_NoDup_set key (data : V) (this : SSRDataStore.t V) :
  NoDup (JsMap.keys (SSRDataStore.store this)) ->
  NoDup (JsMap.keys (SSRDataStore.store (SSRDataStore.set key data this))).
Proof. apply JsMap_set_NoDup. Qed.

(** What the consumer's store holds after [setState(producer.getState())]. *)
Lemma setState_getState_store (producer : SSRDataStore.t V) (window_defined : bool) :
  NoDup (JsMap.keys (SSRDataStore.store producer)) ->
  SSRDataStore.store
    (SSRDataStore.setState (Some (SSRDataStore.getState producer))
       (SSRDataStore.constructor window_defined))
  = JsObject.entries (SSRDataStore.store producer).
Proof.
  intros Hnd. unfold SSRDataStore.setState, SSRDataStore.getState.
  rewrite fromEntries_id by exact Hnd.
  assert (Hfold : forall l (s : SSRDataStore.t V),
    SSRDataStore.store
      (fold_left (fun this kv => SSRDataStore.set (fst kv) (snd kv) this) l s)
    = fold_left (fun o kv => JsMap.set (fst kv) (snd kv) o) l
                (SSRDataStore.store s)).
  { induction l as [| kv l IH]; intros s; simpl; [reflexivity |]. apply IH. }
  rewrite Hfold. simpl. rewrite fold_set_fresh.
  - reflexivity.
  - unfold JsMap.keys. rewrite (entries_perm (SSRDataStore.store producer)).
    exact Hnd.
  - intros k _ Hin. inversion Hin.
Qed.

(** C9, as the code has it.  A fresh consumer given the producer's
    [getState()] holds exactly the producer's pairs: each key reads the same
    value on both sides and the entries are the same up to order.  Their
    order is that of [Object.entries]: keys that are array indices first, in
    ascending numeric order, then the other keys in the producer's insertion
    order; so a store without array-index keys is reproduced in insertion
    order. *)
Theorem hydration_roundtrip (producer : SSRDataStore.t V) (window_defined : bool) :
  NoDup (JsMap.keys (SSRDataStore.store producer)) ->
  let consumer :=
    SSRDataStore.setState (Some (SSRDataStore.getState producer))
      (SSRDataStore.constructor window_defined) in
  (forall key, SSRDataStore.get key consumer = SSRDataStore.get key producer)
  /\ SSRDataStore.store consumer ≡ₚ SSRDataStore.store producer
  /\ SSRDataStore.store consumer = JsObject.entries (SSRDataStore.store producer)
  /\ (Forall (fun k => JsObject.is_index k = false)
             (JsMap.keys (SSRDataStore.store producer)) ->
      SSRDataStore.store consumer = SSRDataStore.store producer).
Proof.
  intros Hnd consumer.
  assert (Hstore : SSRDataStore.store consumer
                   = JsObject.entries (SSRDataStore.store producer))
    by (apply setState_getState_store; exact Hnd).
  assert (Hperm : SSRDataStore.store consumer ≡ₚ SSRDataStore.store producer)
    by (rewrite Hstore; apply entries_perm).
  assert (Hnd' : NoDup (JsMap.keys (SSRDataStore.store consumer)))
    by (unfold JsMap.keys; rewrite Hperm; exact Hnd).
  split; [| split; [exact Hperm | split; [exact Hstore |]]].
  - intros key. unfold SSRDataStore.get.
    destruct (JsMap.get key (SSRDataStore.store producer)) as [v |] eqn:E.
    + apply JsMap_get_Some; [exact Hnd' |]. rewrite Hperm.
      apply JsMap_get_Some; assumption.
    + destruct (JsMap.get key (SSRDataStore.store consumer)) as [v |] eqn:E';
        [| reflexivity].
      apply JsMap_get_Some in E'; [| exact Hnd']. rewrite Hperm in E'.
      apply JsMap_get_Some in E'; [| exact Hnd]. congruence.
  - intros Hall. rewrite Hstore. apply entries_named. exact Hall.
Qed.

End Hydration.

(** Scenario 3: the consumer reads back [user] and [posts], in that order. *)
Lemma hydration_roundtrip_witness :
  let consumer :=
    SSRDataStore.setState (Some (SSRDataStore.getState Sample.prefetched))
      (SSRDataStore.constructor true) in
  SSRDataStore.get "user" consumer = Some (VObject [("id", VNum 1)])
  /\ SSRDataStore.store consumer = SSRDataStore.store Sample.prefetched.
Proof.
  assert (Hnd : NoDup (JsMap.keys (SSRDataStore.store Sample.prefetched))).
  { apply NoDup_cons. split.
    - intros Hin. apply elem_of_cons in Hin as [Heq | Hin];
        [discriminate | inversion Hin].
    - apply NoDup_singleton. }
  destruct (hydration_roundtrip Sample.prefetched true Hnd)
    as (Hget & _ & _ & Horder).
  split.
  - rewrite Hget. reflexivity.
  - apply Horder. repeat constructor.
Defined.

(** C9, as the specification has it, fails: a producer that stored ["b"] and
    then ["1"] is received as ["1"], then ["b"]. *)
Lemma hydration_reorders_index_keys :
  let consumer :=
    SSRDataStore.setState (Some (SSRDataStore.getState Sample.producer))
      (SSRDataStore.constructor true) in
  JsMap.keys (SSRDataStore.store Sample.producer) = ["b"; "1"]
  /\ JsMap.keys (SSRDataStore.store consumer) = ["1"; "b"]
  /\ SSRDataStore.store consumer <> SSRDataStore.store Sample.producer.
Proof. split; [| split]; [reflexivity | reflexivity | discriminate]. Qed.

(** ** One data store for every installation *)

Section Install.

Import httpPlugin.

Lemma load_allocates p l p1 :
  load p = (l, p1) -> is_Some (stores p1 !! l).
Proof.
  unfold load. intros [= <- <-]. simpl. rewrite lookup_insert_eq. eauto.
Qed.

Lemma install_keeps_store l host app options p a p' :
  install l host app options p = (a, p') ->
  is_Some (stores p !! l) ->
  ssrData a = Some l /\ is_Some (stores p' !! l).
Proof.
  unfold install. intros Hinst Hl.
  destruct (negb (in_browser p)).
  - injection Hinst as <- <-. simpl. auto.
  - destruct (window_SSR_DATA p) as [state |]; injection Hinst as <- <-; simpl.
    + split; [reflexivity |]. rewrite lookup_alter_eq.
      destruct Hl as [s ->]. simpl. eauto.
    + auto.
Qed.

(** Any two installations that are handed the same store reference read
    each other's writes. *)
Lemma same_reference_same_store
    host p l p1 app1 options1 a1 p2 app2 options2 a2 p3 key data :
  load p = (l, p1) ->
  install l host app1 options1 p1 = (a1, p2) ->
  install l host app2 options2 p2 = (a2, p3) ->
  ssrData a1 = Some l /\ ssrData a2 = Some l
  /\ ssrData_get a2 key (ssrData_set a1 key data p3) = Some data
  /\ ssrData_has a2 key (ssrData_set a1 key data p3) = true.
Proof.
  intros Hload H1 H2.
  destruct (install_keeps_store _ _ _ _ _ _ _ H1 (load_allocates _ _ _ Hload))
    as [Ha1 Hl2].
  destruct (install_keeps_store _ _ _ _ _ _ _ H2 Hl2) as [Ha2 [s Hl3]].
  assert (Hread :
    stores (ssrData_set a1 key data p3) !! l = Some (SSRDataStore.set key data s)).
  { unfold ssrData_set. rewrite Ha1. simpl. rewrite lookup_alter_eq, Hl3.
    reflexivity. }
  split; [exact Ha1 |]. split; [exact Ha2 |]. split.
  - unfold ssrData_get. rewrite Ha2. simpl. rewrite Hread. simpl.
    apply JsMap_get_set_eq.
  - unfold ssrData_has. rewrite Ha2, Hread.
    unfold SSRDataStore.has, JsMap.has. simpl. rewrite JsMap_get_set_eq.
    reflexivity.
Qed.

Lemma install_on_server l host app options p :
  in_browser p = false ->
  in_browser (snd (install l host app options p)) = false
  /\ global_SSR_DATA (snd (install l host app options p)) = Some l.
Proof. intros Hb. unfold install. rewrite Hb. simpl. auto. Qed.

(** C6, as the code of src/SSR/plugins/1.js has it.  The module is
    evaluated once in a process and any two calls of [install] follow, each
    on its own application and with its own options.  Then the two
    applications' [$ssrData] are one and the same object, the one bound in
    the module's scope (and, on the server, also published as
    [global.__SSR_DATA__]); and what one installation's store is given by
    [set], the other installation's [get] and [has] see. *)
Theorem installations_share_module_data_store
    host p app1 options1 app2 options2 key data :
  let r1 := call_install host app1 options1 (evaluate p) in
  let r2 := call_install host app2 options2 (snd r1) in
  ssrData (fst r1) = Some (module_ssrDataStore (snd r2))
  /\ ssrData (fst r2) = Some (module_ssrDataStore (snd r2))
  /\ ssrData_get (fst r2) key
       (ssrData_set (fst r1) key data (process (snd r2))) = Some data
  /\ ssrData_has (fst r2) key
       (ssrData_set (fst r1) key data (process (snd r2))) = true
  /\ (in_browser p = false ->
      global_SSR_DATA (process (snd r2)) = Some (module_ssrDataStore (snd r2))).
Proof.
  cbv zeta. unfold evaluate, call_install.
  destruct (load p) as [l p1] eqn:Hload. cbn [module_ssrDataStore process].
  destruct (install l host app1 options1 p1) as [a1 p2] eqn:H1.
  cbn [fst snd module_ssrDataStore process].
  destruct (install l host app2 options2 p2) as [a2 p3] eqn:H2.
  cbn [fst snd module_ssrDataStore process].
  destruct (same_reference_same_store host p l p1 app1 options1 a1 p2
              app2 options2 a2 p3 key data Hload H1 H2)
    as (Ha1 & Ha2 & Hget & Hhas).
  repeat (split; [assumption |]).
  intros Hb.
  assert (Hb1 : in_browser p1 = false)
    by (unfold load in Hload; injection Hload as <- <-; exact Hb).
  destruct (install_on_server l host app1 options1 p1 Hb1) as [Hb2 _].
  rewrite H1 in Hb2. simpl in Hb2.
  destruct (install_on_server l host app2 options2 p2 Hb2) as [_ Hg].
  rewrite H2 in Hg. exact Hg.
Qed.

End Install.

(** Two render cycles on one server: [user], stored through the first
    application, is read through the second, and the store they share is
    the process's [global.__SSR_DATA__]. *)
Lemma installations_share_module_data_store_witness :
  httpPlugin.ssrData (fst Sample.render1) = httpPlugin.ssrData (fst Sample.render2)
  /\ httpPlugin.ssrData_get (fst Sample.render2) "user"
       (httpPlugin.ssrData_set (fst Sample.render1) "user" (VNum 1)
          (httpPlugin.process (snd Sample.render2)))
     = Some (VNum 1)
  /\ httpPlugin.global_SSR_DATA (httpPlugin.process (snd Sample.render2))
     = httpPlugin.ssrData (fst Sample.render2).
Proof.
  destruct (installations_share_module_data_store Sample.host Sample.server
              Sample.bare_app Sample.no_ctor_options
              Sample.bare_app Sample.no_ctor_options "user" (VNum 1))
    as (Ha1 & Ha2 & Hget & _ & Hglobal).
  split; [exact (eq_trans Ha1 (eq_sym Ha2)) |]. split; [exact Hget |].
  exact (eq_trans (Hglobal eq_refl) (eq_sym Ha2)).
Defined.

(** C6, as the specification has it, fails: before the first cycle writes
    [user] the second cycle's store does not have it, afterwards it does. *)
Lemma data_store_leaks_across_cycles :
  httpPlugin.ssrData_has (fst Sample.render2) "user"
    (httpPlugin.process (snd Sample.render2)) = false
  /\ httpPlugin.ssrData_has (fst Sample.render2) "user"
       (httpPlugin.ssrData_set (fst Sample.render1) "user" (VNum 1)
          (httpPlugin.process (snd Sample.render2)))
     = true.
Proof. split; vm_compute; reflexivity. Qed.

(** ** Failures *)

(** The client of an installation is the one [installed_client] names. *)
Lemma install_client host l app p :
  httpPlugin.http (fst (httpPlugin.install l host app Sample.no_ctor_options p))
  = Some (Sample.installed_client host).
Proof.
  unfold httpPlugin.install.
  destruct (negb (httpPlugin.in_browser p)); [reflexivity |].
  destruct (httpPlugin.window_SSR_DATA p); reflexivity.
Qed.

(** C1. [$http.delete('/user/123')] on an installed client, answered with a
    404: the [catch] block runs the response chain on [null], the default
    response interceptor reads [null.status], and the TypeError of that read
    is what the caller gets; no normalized error is built. *)
Theorem failed_request_throws_raw_TypeError host :
  fst (HttpClient.delete_ "/user/123" Options.empty
         (Sample.state (Sample.installed_client host)
            (Sample.always 404 "Not Found")))
  = Throw (TypeError "Cannot read properties of null (reading 'status')").
Proof. vm_compute. reflexivity. Qed.

(** A rejection in the request chain is not caught at all: when the host's
    [new URL('', '')] throws, every GET of an installed client throws that
    TypeError before anything is dispatched. *)
Lemma request_chain_rejection_is_raw host path options s :
  HttpClient.this s = Sample.installed_client host ->
  URL_parse host "" "" = None ->
  Options.url options = None -> Options.baseURL options = None ->
  Options.timestamp options = None ->
  HttpClient.get path options s = (Throw (TypeError "Invalid URL"), s).
Proof.
  intros Hthis Hurl Hu Hb Ht. destruct s as [this w]. simpl in Hthis. subst this.
  unfold HttpClient.get, HttpClient.request, bind, gets. simpl.
  unfold HttpClient.in_world, in_env, HttpClient.processRequestInterceptors. simpl.
  unfold bind, HttpClient.stage, try_catch. simpl.
  unfold httpPlugin.defaultRequestFulfilled, bind. simpl.
  rewrite Hu, Hb, Ht. simpl. rewrite Hurl. simpl.
  destruct w as [e lg net]. destruct e. reflexivity.
Qed.

(** With no interceptors registered the error is normalized, with status 0
    for an HTTP failure too, and the response chain has seen nothing. *)
Lemma bare_client_normalizes :
  fst (HttpClient.delete_ "/user/123" Options.empty
         (Sample.state Sample.client (Sample.always 404 "Not Found")))
  = Throw (VNormalized (VStr "HTTP 404: Not Found") (VNum 0)
             (HttpClient.build_config Sample.client
                (HttpClient.with_method Options.empty "DELETE"))
             (VError (HttpClient.HttpError (Sample.response 404 "Not Found")))).
Proof. vm_compute. reflexivity. Qed.

(** ** What a call does to the log and the cache *)

Section RequestEffects.
Import HttpClient.

Lemma in_env_world {A} (m : M Env A) w :
  fetch_log (snd (in_env m w)) = fetch_log w
  /\ network (snd (in_env m w)) = network w.
Proof. unfold in_env. destruct (m (env w)). simpl. auto. Qed.

Lemma in_world_run {A} (m : M World A) s r w' :
  m (world s) = (r, w') ->
  in_world m s = (r, {| this := this s; world := w' |}).
Proof. unfold in_world. intros ->. reflexivity. Qed.

(** Two clients that differ in their cache at most have the same settings
    and interceptors. *)
Lemma set_cache_frozen m (c : t) : set_cache ∅ (set_cache m c) = set_cache ∅ c.
Proof. reflexivity. Qed.

Lemma cache_check_spec full config s :
  exists hit s',
    cache_check full config s = (Normal hit, s')
    /\ world s' = world s
    /\ set_cache ∅ (this s') = set_cache ∅ (this s)
    /\ match hit with
       | Some v =>
           s' = s /\ cacheable config = true
           /\ exists entry,
                cache (this s) !! generateCacheKey full config = Some entry
                /\ data entry = v
       | None =>
           cache (this s') = cache (this s)
           \/ (cacheable config = true
               /\ cache (this s')
                  = delete (generateCacheKey full config) (cache (this s)))
       end.
Proof.
  unfold cache_check.
  destruct (cacheable config); [| exists None, s; unfold ret; auto].
  cbv zeta. unfold bind.
  destruct (cache (this s) !! generateCacheKey full config) as [entry |] eqn:E.
  - destruct (Z.ltb_spec (now (env (world s)) - timestamp entry)
                         (cacheTimeout (this s))) as [Hage | Hage].
    + rewrite (getCache_fresh _ _ _ E Hage). unfold ret.
      destruct (truthy (data entry)); eexists _, s;
        (split; [reflexivity | eauto 8]).
    + rewrite (getCache_expired _ _ _ E Hage). unfold ret. simpl.
      eexists None, _. split; [reflexivity |]. simpl. auto.
  - rewrite (getCache_absent _ _ E). unfold ret. simpl.
    eexists None, _. split; [reflexivity |]. simpl. auto.
Qed.

(** The [try] block dispatches to [full] only, at least once, and writes
    the cache only as its last step, with the value it then returns. *)
Lemma try_block_spec client full config s res s' :
  try_block client full config s = (res, s') ->
  exists k,
    fetch_log (world s') = fetch_log (world s) ++ repeat (full, config) (S k)
    /\ set_cache ∅ (this s') = set_cache ∅ (this s)
    /\ match res with
       | Normal v =>
           cache (this s')
           = if cacheable config
             then <[generateCacheKey full config :=
                      {| data := v; timestamp := now (env (world s')) |}]>
                    (cache (this s))
             else cache (this s)
       | Throw _ => cache (this s') = cache (this s)
       end.
Proof.
  unfold try_block. unfold bind at 1.
  destruct (requestWithRetry_log client full config
              (retryCount client - 0)%nat 0%nat (world s) eq_refl)
    as (k & _ & Hlog & _).
  intros Hrun. exists k.
  destruct (requestWithRetry client full config 0 (world s))
    as [[response | err] w1] eqn:Erun; simpl in Hlog;
    rewrite (in_world_run _ _ _ _ Erun) in Hrun;
    [| injection Hrun as <- <-; simpl; auto].
  unfold bind at 1 in Hrun.
  set (body := if is_json _ then _ else _) in Hrun.
  assert (Hbody : (exists d, forall s0 : St, body s0 = (Normal d, s0))
                  \/ exists e, forall s0 : St, body s0 = (Throw e, s0)).
  { subst body. unfold read_body.
    destruct (is_json _);
      [destruct (Response.json response) | destruct (Response.text response)];
      unfold ret, throw; eauto. }
  destruct Hbody as [[d Hd] | [e He]];
    [rewrite Hd in Hrun
    | rewrite He in Hrun; injection Hrun as <- <-; simpl; auto].
  unfold bind at 1 in Hrun.
  pose proof (in_env_world (processResponseInterceptors client
    (VResult d (Response.status response) (Response.statusText response)
       (Response.headers response) config)) w1) as [Hl2 _].
  destruct (in_env (processResponseInterceptors client
    (VResult d (Response.status response) (Response.statusText response)
       (Response.headers response) config)) w1) as [[v | e] w2] eqn:Echain;
    simpl in Hl2;
    rewrite (in_world_run _ {| this := this s; world := w1 |} _ _ Echain) in Hrun;
    [| injection Hrun as <- <-; simpl; rewrite Hl2; auto].
  unfold bind at 1 in Hrun.
  destruct (cacheable config); simpl in Hrun; injection Hrun as <- <-; simpl;
    rewrite Hl2; auto.
Qed.

Lemma catch_block_spec client config error s res s' :
  catch_block client config error s = (res, s') ->
  fetch_log (world s') = fetch_log (world s)
  /\ this s' = this s
  /\ exists e, res = Throw e.
Proof.
  unfold catch_block. unfold bind at 1.
  pose proof (in_env_world (processResponseInterceptors client VNull) (world s))
    as [Hl _].
  destruct (in_env (processResponseInterceptors client VNull) (world s))
    as [[v | e] w1] eqn:E; simpl in Hl;
    rewrite (in_world_run _ _ _ _ E);
    [| intros [= <- <-]; simpl; eauto].
  unfold bind, prop, ret, throw.
  destruct (get_prop error "message"); [| intros [= <- <-]; simpl; eauto].
  destruct (get_prop error "status"); intros [= <- <-]; simpl; eauto.
Qed.

(** A rejection in the request chain ends the call there. *)
Lemma request_chain_throws path options s err w0 :
  in_env (processRequestInterceptors (this s) (build_config (this s) options))
         (world s) = (Throw err, w0) ->
  request path options s = (Throw err, {| this := this s; world := w0 |}).
Proof.
  intros E0. unfold request. unfold bind at 1. simpl. unfold bind at 1.
  rewrite (in_world_run _ _ _ _ E0). reflexivity.
Qed.

(** Every way [request] can end once the request chain has produced
    [config]: a hit leaves log and cache alone; otherwise [full] is fetched
    [n > 0] times, and the cache gets a new entry only when the call
    succeeds. *)
Lemma request_after_chain path options s config w0 res s' :
  in_env (processRequestInterceptors (this s) (build_config (this s) options))
         (world s) = (Normal config, w0) ->
  request path options s = (res, s') ->
  let full := fullUrl (this s) path in
  let key := generateCacheKey full config in
  exists n,
    fetch_log (world s') = fetch_log (world s) ++ repeat (full, config) n
    /\ set_cache ∅ (this s') = set_cache ∅ (this s)
    /\ match res with
       | Normal v =>
           (n = 0%nat /\ s' = {| this := this s; world := w0 |}
            /\ cacheable config = true
            /\ exists entry, cache (this s) !! key = Some entry /\ data entry = v)
           \/ ((0 < n)%nat
               /\ cache (this s')
                  = if cacheable config
                    then <[key := {| data := v;
                                     timestamp := now (env (world s')) |}]>
                           (cache (this s))
                    else cache (this s))
       | Throw _ =>
           cache (this s') = cache (this s)
           \/ cache (this s') = delete key (cache (this s))
       end.
Proof.
  intros E0 Hrun. cbv zeta. unfold request in Hrun. unfold bind at 1 in Hrun.
  simpl in Hrun. unfold bind at 1 in Hrun.
  pose proof (in_env_world
    (processRequestInterceptors (this s) (build_config (this s) options))
    (world s)) as [Hl0 _].
  rewrite E0 in Hl0. simpl in Hl0.
  rewrite (in_world_run _ _ _ _ E0) in Hrun.
  unfold bind at 1 in Hrun.
  destruct (cache_check_spec (fullUrl (this s) path) config
              {| this := this s; world := w0 |})
    as (hit & s1 & Hcheck & Hw1 & Ht1 & Hhit).
  rewrite Hcheck in Hrun. simpl in Hw1, Ht1, Hhit.
  destruct hit as [cached |].
  - destruct Hhit as (-> & Hc & Hentry). injection Hrun as <- <-.
    exists 0%nat. simpl. rewrite Hl0, app_nil_r.
    auto 8.
  - unfold try_catch in Hrun.
    destruct (try_block (this s) (fullUrl (this s) path) config s1)
      as [[v | err] s2] eqn:Etry;
      destruct (try_block_spec _ _ _ _ _ _ Etry) as (k & Hlog & Ht2 & Hcache);
      rewrite Hw1, Hl0 in Hlog.
    + injection Hrun as <- <-. exists (S k). split; [exact Hlog |].
      split; [congruence |].
      right. split; [lia |]. rewrite Hcache.
      destruct (cacheable config); destruct Hhit as [-> | [Hc ->]];
        try reflexivity; [apply insert_delete_eq | discriminate Hc].
    + destruct (catch_block_spec _ _ _ _ _ _ Hrun) as (Hl3 & Ht3 & e & ->).
      exists (S k). rewrite Hl3, Ht3, Hcache.
      split; [exact Hlog |]. split; [congruence | tauto].
Qed.

(** On a hit the cached value is returned at once. *)
Lemma request_hit path options s config w0 entry :
  in_env (processRequestInterceptors (this s) (build_config (this s) options))
         (world s) = (Normal config, w0) ->
  cacheable config = true ->
  cache (this s) !! generateCacheKey (fullUrl (this s) path) config = Some entry ->
  now (env w0) - timestamp entry < cacheTimeout (this s) ->
  truthy (data entry) = true ->
  request path options s = (Normal (data entry), {| this := this s; world := w0 |}).
Proof.
  intros E0 Hc Hin Hage Htruthy.
  unfold request. unfold bind at 1. simpl. unfold bind at 1.
  rewrite (in_world_run _ _ _ _ E0). unfold bind at 1.
  unfold cache_check. rewrite Hc. cbv zeta. unfold bind at 1.
  rewrite (getCache_fresh _ {| this := this s; world := w0 |} entry Hin Hage).
  unfold ret. rewrite Htruthy. reflexivity.
Qed.

(** C8. A cacheable GET went to the network and succeeded with a (truthy)
    result [r].  A repeat call on the same client whose request chain yields
    the same cache key, made while less than [cacheTimeout] ms have passed
    since the first call ended, returns [r] and leaves the fetch log and the
    cache as they were.  And whenever a call ends, any cache entry that was
    not there before it holds the successful result of that very call, which
    went to the network. *)
Theorem repeat_get_served_from_cache
    path options s1 config1 w1 r s1' s2 config2 w2 :
  in_env (processRequestInterceptors (this s1) (build_config (this s1) options))
         (world s1) = (Normal config1, w1) ->
  cacheable config1 = true ->
  request path options s1 = (Normal r, s1') ->
  fetch_log (world s1') <> fetch_log (world s1) ->
  truthy r = true ->
  this s2 = this s1' ->
  in_env (processRequestInterceptors (this s2) (build_config (this s2) options))
         (world s2) = (Normal config2, w2) ->
  cacheable config2 = true ->
  generateCacheKey (fullUrl (this s2) path) config2
  = generateCacheKey (fullUrl (this s1) path) config1 ->
  now (env w2) - now (env (world s1')) < cacheTimeout (this s2) ->
  (request path options s2 = (Normal r, {| this := this s2; world := w2 |})
   /\ fetch_log w2 = fetch_log (world s2))
  /\ (forall s res s' key entry,
        request path options s = (res, s') ->
        cache (this s') !! key = Some entry ->
        cache (this s) !! key = Some entry
        \/ (res = Normal (data entry)
            /\ fetch_log (world s') <> fetch_log (world s))).
Proof.
  intros E1 Hc1 Hrun1 Hmiss Htruthy Hthis E2 Hc2 Hkey Hage. split.
  - destruct (request_after_chain _ _ _ _ _ _ _ E1 Hrun1)
      as (n & Hlog & _ & [(-> & _) | (Hn & Hcache)]).
    + simpl in Hlog. rewrite app_nil_r in Hlog. contradiction.
    + rewrite Hc1 in Hcache. split.
      * apply (request_hit path options s2 config2 w2
                 {| data := r; timestamp := now (env (world s1')) |});
          auto.
        rewrite Hkey, Hthis, Hcache. apply lookup_insert_eq.
      * pose proof (in_env_world
          (processRequestInterceptors (this s2) (build_config (this s2) options))
          (world s2)) as [Hl _].
        rewrite E2 in Hl. exact Hl.
  - intros s res s' key entry Hrun Hin.
    destruct (in_env (processRequestInterceptors (this s)
                        (build_config (this s) options)) (world s))
      as [[config | err] w0] eqn:E0.
    + destruct (request_after_chain _ _ _ _ _ _ _ E0 Hrun)
        as (n & Hlog & _ & Hres).
      destruct res as [v | e].
      * destruct Hres as [(_ & -> & _) | (Hn & Hcache)]; [left; exact Hin |].
        destruct (cacheable config); [| left; rewrite <- Hcache; exact Hin].
        rewrite Hcache in Hin.
        destruct (decide (generateCacheKey (fullUrl (this s) path) config = key))
          as [<- | Hne].
        -- rewrite lookup_insert_eq in Hin. injection Hin as <-. right.
           split; [reflexivity |]. rewrite Hlog. destruct n; [lia |].
           simpl. intros Heq. apply (f_equal (@length _)) in Heq.
           rewrite length_app in Heq. simpl in Heq. lia.
        -- rewrite lookup_insert_ne in Hin by exact Hne. left. exact Hin.
      * left. destruct Hres as [Hcache | Hcache]; rewrite Hcache in Hin;
          [exact Hin |].
        apply lookup_delete_Some in Hin as [_ Hin]. exact Hin.
    + rewrite (request_chain_throws _ _ _ _ _ E0) in Hrun.
      injection Hrun as <- <-. left. exact Hin.
Qed.


End RequestEffects.

(** Scenario 1: two [GET /user] calls one second apart; the second returns
    the first one's result and the network has been asked once. *)
Lemma repeat_get_served_from_cache_witness :
  let first :=
    HttpClient.request "/user" Options.empty
      (Sample.state Sample.client (Sample.always 200 "OK")) in
  let s2 := {| HttpClient.this := HttpClient.this (snd first);
               HttpClient.world := elapse 1000 (HttpClient.world (snd first)) |} in
  fst first = Normal Sample.result
  /\ HttpClient.request "/user" Options.empty s2 = (Normal Sample.result, s2)
  /\ fetch_log (HttpClient.world s2) = [("/api/user", Sample.get_config)].
Proof.
  cbv zeta.
  set (s1 := Sample.state Sample.client (Sample.always 200 "OK")).
  set (first := HttpClient.request "/user" Options.empty s1).
  set (s2 := {| HttpClient.this := HttpClient.this (snd first);
                HttpClient.world := elapse 1000 (HttpClient.world (snd first)) |}).
  assert (Hfirst : first = (Normal Sample.result, snd first))
    by (vm_compute; reflexivity).
  split; [rewrite Hfirst; reflexivity |].
  split; [| vm_compute; reflexivity].
  refine (proj1 (proj1 (repeat_get_served_from_cache "/user" Options.empty
            s1 Sample.get_config (HttpClient.world s1) Sample.result (snd first)
            s2 Sample.get_config (HttpClient.world s2)
            _ _ Hfirst _ _ _ _ _ _ _))).
  - reflexivity.
  - reflexivity.
  - vm_compute. discriminate.
  - reflexivity.
  - reflexivity.
  - vm_compute. reflexivity.
  - reflexivity.
  - reflexivity.
  - vm_compute. reflexivity.
Defined.

(** The default request interceptor puts [?_t=1000] on [config.url]; the
    call is dispatched to, and cached under, the URL without it. *)
Lemma cache_busting_param_not_dispatched :
  let r := HttpClient.get "/user" Sample.with_url
             (Sample.state (Sample.installed_client Sample.host)
                (Sample.always 200 "OK")) in
  map (fun call => (fst call, Config.url (snd call)))
      (fetch_log (HttpClient.world (snd r)))
  = [("/api/user", Some "http://localhost:3000/user?_t=1000")]
  /\ map fst (map_to_list (HttpClient.cache (HttpClient.this (snd r))))
     = ["GET:/api/user:"].
Proof. split; vm_compute; reflexivity. Qed.

(** * Further properties *)

(** ** Retry: what is retried and how often *)

(** X1. A failure that [shouldRetry] refuses ends the call at once: one
    dispatch, and the budget is left unused. *)
Theorem non_retryable_failure_is_final this url options w e :
  HttpClient.nth_outcome this url options w 0 = inr e ->
  HttpClient.shouldRetry e = false ->
  exists w',
    HttpClient.requestWithRetry this url options 0 w = (Throw (VError e), w')
    /\ fetch_log w' = fetch_log w ++ [(url, options)].
Proof.
  intros Hout Hno. rewrite requestWithRetry_unfold.
  destruct (attempt_spec this url options w) as [ms ->].
  rewrite Hout, Hno, andb_false_r. eexists. split; reflexivity.
Qed.

(** A 404 is final. *)
Lemma non_retryable_failure_is_final_witness :
  exists w',
    HttpClient.requestWithRetry Sample.client "/api/user" Sample.get_config 0
      (Sample.world (Sample.always 404 "Not Found"))
    = (Throw (VError (HttpClient.HttpError (Sample.response 404 "Not Found"))), w')
    /\ fetch_log w' = [("/api/user", Sample.get_config)].
Proof.
  apply (non_retryable_failure_is_final Sample.client "/api/user"
           Sample.get_config (Sample.world (Sample.always 404 "Not Found")));
    reflexivity.
Defined.

Lemma startsWith_empty s : Str.startsWith s "" = true.
Proof. destruct s; reflexivity. Qed.

Lemma includes_later c s p :
  Str.includes s p = true -> Str.includes (String c s) p = true.
Proof.
  intros H.
  change (Str.startsWith (String c s) p || Str.includes s p = true).
  rewrite H. apply orb_true_r.
Qed.

Lemma includes_here c s : Str.includes (String c s) (String c "") = true.
Proof.
  change ((Ascii.eqb c c && Str.startsWith s "") || Str.includes s (String c "")
          = true).
  rewrite Ascii.eqb_refl, startsWith_empty. reflexivity.
Qed.

Lemma of_Z_5xx n :
  (n < 100)%nat ->
  exists rest, Str.of_Z (500 + Z.of_nat n) = String "5" rest.
Proof.
  intros Hn.
  assert (Hall : forallb
            (fun k => match Str.of_Z (500 + Z.of_nat k) with
                      | String "5" _ => true
                      | _ => false
                      end) (seq 0 100) = true) by (vm_compute; reflexivity).
  rewrite forallb_forall in Hall.
  specialize (Hall n ltac:(apply in_seq; lia)).
  destruct (Str.of_Z (500 + Z.of_nat n)) as [| c rest]; [discriminate |].
  destruct (Ascii.eqb_spec c "5") as [-> | Hc].
  - eauto.
  - exfalso. destruct c as [[] [] [] [] [] [] [] []]; try discriminate Hall.
    apply Hc. reflexivity.
Qed.

(** X2. Every response with a status from 500 to 599 is a retryable failure,
    whatever its status text. *)
Theorem server_errors_are_retried (response : Response.t) :
  500 <= Response.status response <= 599 ->
  Response.ok response = false
  /\ HttpClient.shouldRetry (HttpClient.HttpError response) = true.
Proof.
  intros Hst. split.
  - unfold Response.ok. apply andb_false_iff. right. apply Z.leb_gt. lia.
  - destruct (of_Z_5xx (Z.to_nat (Response.status response - 500)) ltac:(lia))
      as [rest Hrest].
    replace (500 + Z.of_nat (Z.to_nat (Response.status response - 500)))
      with (Response.status response) in Hrest by lia.
    unfold HttpClient.shouldRetry, HttpClient.HttpError. cbn [name message].
    rewrite Hrest.
    match goal with
    | |- _ || ?x = true =>
        replace x with true; [apply orb_true_r |];
        symmetry; cbn [String.append];
        do 5 apply includes_later; apply includes_here
    end.
Qed.

Lemma server_errors_are_retried_witness :
  Response.ok (Sample.response 503 "Service Unavailable") = false
  /\ HttpClient.shouldRetry
       (HttpClient.HttpError (Sample.response 503 "Service Unavailable")) = true.
Proof.
  apply (server_errors_are_retried (Sample.response 503 "Service Unavailable")).
  simpl. lia.
Defined.

(** X3. [options.retryCount || 3] and the guard
    [retryCount < this.retryCount], when the first attempt fails retryably:
    a configured 0 is replaced by 3, so the failure is retried all the same;
    a negative value is kept, and with it no retry is ever made: one fetch,
    and the error is thrown. *)
Theorem retryCount_zero_and_negative options url config w e :
  HttpClient.nth_outcome (HttpClient.constructor options) url config w 0 = inr e ->
  HttpClient.shouldRetry e = true ->
  (HttpClient.opt_retryCount options = Some 0 ->
   HttpClient.retryCount (HttpClient.constructor options) = 3%nat
   /\ exists k,
        fetch_log (snd (HttpClient.requestWithRetry
                          (HttpClient.constructor options) url config 0 w))
        = fetch_log w ++ repeat (url, config) (2 + k))
  /\
  (forall n, HttpClient.opt_retryCount options = Some n -> n < 0 ->
   exists w',
     HttpClient.requestWithRetry (HttpClient.constructor options) url config 0 w
     = (Throw (VError e), w')
     /\ fetch_log w' = fetch_log w ++ [(url, config)]).
Proof.
  intros Hout Hretry. split.
  - intros Hzero.
    assert (Hthree : HttpClient.retryCount (HttpClient.constructor options) = 3%nat)
      by (simpl; rewrite Hzero; reflexivity).
    split; [exact Hthree |].
    rewrite requestWithRetry_unfold.
    destruct (attempt_spec (HttpClient.constructor options) url config w)
      as [ms ->].
    rewrite Hout, Hretry, (proj2 (Nat.ltb_lt 0 _)) by lia. cbn [andb].
    destruct (requestWithRetry_log (HttpClient.constructor options) url config
                (HttpClient.retryCount (HttpClient.constructor options) - 1)%nat
                1%nat
                (snd (HttpClient.delay
                        (HttpClient.retryDelay (HttpClient.constructor options))
                        (elapse ms (log_fetch url config w)))) eq_refl)
      as (k & _ & Hlog & _).
    exists k. rewrite Hlog. simpl. rewrite <- app_assoc. reflexivity.
  - intros n Hn Hneg.
    assert (Hnone : HttpClient.retryCount (HttpClient.constructor options) = 0%nat).
    { simpl. rewrite Hn. simpl. destruct (Z.eqb_spec n 0); lia. }
    rewrite requestWithRetry_unfold.
    destruct (attempt_spec (HttpClient.constructor options) url config w)
      as [ms ->].
    rewrite Hout, Hnone. simpl. eexists. split; reflexivity.
Qed.

(** A server that always answers 500: with [retryCount: 0] it is asked at
    least twice, with [retryCount: -1] once. *)
Lemma retryCount_zero_and_negative_witness :
  (exists k,
     fetch_log (snd (HttpClient.requestWithRetry
                       (HttpClient.constructor Sample.no_retries)
                       "/api/user" Sample.get_config 0
                       (Sample.world (Sample.always 500 "Server Error"))))
     = repeat ("/api/user", Sample.get_config) (2 + k))
  /\ exists w',
       HttpClient.requestWithRetry (HttpClient.constructor Sample.negative_retries)
         "/api/user" Sample.get_config 0
         (Sample.world (Sample.always 500 "Server Error"))
       = (Throw (VError (HttpClient.HttpError
                           (Sample.response 500 "Server Error"))), w')
       /\ fetch_log w' = [("/api/user", Sample.get_config)].
Proof.
  split.
  - apply (proj1 (retryCount_zero_and_negative Sample.no_retries "/api/user"
                    Sample.get_config
                    (Sample.world (Sample.always 500 "Server Error"))
                    (HttpClient.HttpError (Sample.response 500 "Server Error"))
                    eq_refl eq_refl)).
    reflexivity.
  - apply (proj2 (retryCount_zero_and_negative Sample.negative_retries "/api/user"
                    Sample.get_config
                    (Sample.world (Sample.always 500 "Server Error"))
                    (HttpClient.HttpError (Sample.response 500 "Server Error"))
                    eq_refl eq_refl) (-1)); [reflexivity | lia].
Defined.

(** ** The cache store *)

Section CacheMore.

Import HttpClient.

(** X4. What [setCache] stores is what [getCache] finds until [cacheTimeout] ms
    have passed; from then on the lookup answers [null] and removes the
    entry.  Other keys are not touched by either. *)
Theorem cache_roundtrip cacheKey value (s s2 : St) :
  this s2 = this (snd (setCache cacheKey value s)) ->
  let age := now (env (world s2)) - now (env (world s)) in
  (age < cacheTimeout (this s) -> getCache cacheKey s2 = (Normal value, s2))
  /\ (cacheTimeout (this s) <= age ->
      fst (getCache cacheKey s2) = Normal VNull
      /\ cache (this (snd (getCache cacheKey s2))) !! cacheKey = None)
  /\ (forall other, other <> cacheKey ->
      cache (this (snd (getCache cacheKey s2))) !! other
      = cache (this s) !! other).
Proof.
  intros Hthis age.
  assert (Hentry : cache (this s2) !! cacheKey
                   = Some {| data := value; timestamp := now (env (world s)) |}).
  { rewrite Hthis. simpl. apply lookup_insert_eq. }
  assert (Httl : cacheTimeout (this s2) = cacheTimeout (this s))
    by (rewrite Hthis; reflexivity).
  assert (Hother : forall other, other <> cacheKey ->
            cache (this s2) !! other = cache (this s) !! other).
  { intros other Hne. rewrite Hthis. simpl. apply lookup_insert_ne. congruence. }
  split; [| split].
  - intros Hage. apply (getCache_fresh cacheKey s2 _ Hentry).
    rewrite Httl. exact Hage.
  - intros Hage.
    rewrite (getCache_expired cacheKey s2 _ Hentry) by (rewrite Httl; exact Hage).
    simpl. split; [reflexivity | apply lookup_delete_eq].
  - intros other Hne.
    destruct (Z.ltb_spec (now (env (world s2)) - now (env (world s)))
                         (cacheTimeout (this s2))) as [Hage | Hage].
    + rewrite (getCache_fresh cacheKey s2 _ Hentry Hage). simpl. auto.
    + rewrite (getCache_expired cacheKey s2 _ Hentry Hage). simpl.
      rewrite lookup_delete_ne by congruence. auto.
Qed.

End CacheMore.

(** A value cached at time 1000 is found at time 2000. *)
Lemma cache_roundtrip_witness :
  let s := Sample.state Sample.client (Sample.always 200 "OK") in
  let s2 := {| HttpClient.this :=
                 HttpClient.this (snd (HttpClient.setCache "k" (VNum 7) s));
               HttpClient.world := elapse 1000 (HttpClient.world s) |} in
  HttpClient.getCache "k" s2 = (Normal (VNum 7), s2).
Proof.
  cbv zeta.
  apply (proj1 (cache_roundtrip "k" (VNum 7)
                  (Sample.state Sample.client (Sample.always 200 "OK"))
                  {| HttpClient.this :=
                       HttpClient.this
                         (snd (HttpClient.setCache "k" (VNum 7)
                                 (Sample.state Sample.client
                                    (Sample.always 200 "OK"))));
                     HttpClient.world :=
                       elapse 1000
                         (HttpClient.world
                            (Sample.state Sample.client
                               (Sample.always 200 "OK"))) |}
                  eq_refl)).
  vm_compute. reflexivity.
Defined.

(** ** The request pipeline as a whole *)

Section PipelineMore.

Import HttpClient.

(** [request], stage by stage. *)
Lemma request_stages path options s :
  request path options s =
  match in_env (processRequestInterceptors (this s) (build_config (this s) options))
               (world s) with
  | (Throw err, w0) => (Throw err, {| this := this s; world := w0 |})
  | (Normal config, w0) =>
      match cache_check (fullUrl (this s) path) config
                        {| this := this s; world := w0 |} with
      | (Normal (Some cachedResponse), s1) => (Normal cachedResponse, s1)
      | (Normal None, s1) =>
          try_catch (try_block (this s) (fullUrl (this s) path) config)
                    (catch_block (this s) config) s1
      | (Throw err, s1) => (Throw err, s1)
      end
  end.
Proof.
  unfold request. unfold bind at 1. simpl. unfold bind at 1.
  destruct (in_env _ (world s)) as [[config | err] w0] eqn:E0;
    rewrite (in_world_run _ _ _ _ E0); [| reflexivity].
  unfold bind at 1.
  destruct (cache_check _ config _) as [[[cached |] | err] s1]; reflexivity.
Qed.

Lemma cache_check_uncacheable full config s :
  cacheable config = false -> cache_check full config s = (Normal None, s).
Proof. intros H. unfold cache_check. rewrite H. reflexivity. Qed.

(** The [try] block fetches exactly what [requestWithRetry] fetches. *)
Lemma try_block_log client full config s :
  fetch_log (world (snd (try_block client full config s)))
  = fetch_log (snd (requestWithRetry client full config 0 (world s))).
Proof.
  destruct (try_block client full config s) as [res s'] eqn:Hrun.
  unfold try_block in Hrun. unfold bind at 1 in Hrun.
  destruct (requestWithRetry client full config 0 (world s))
    as [[response | err] w1] eqn:Erun;
    rewrite (in_world_run _ _ _ _ Erun) in Hrun;
    [| injection Hrun as <- <-; reflexivity].
  unfold bind at 1 in Hrun.
  set (body := if is_json _ then _ else _) in Hrun.
  assert (Hbody : (exists d, forall s0 : St, body s0 = (Normal d, s0))
                  \/ exists e, forall s0 : St, body s0 = (Throw e, s0)).
  { subst body. unfold read_body.
    destruct (is_json _);
      [destruct (Response.json response) | destruct (Response.text response)];
      unfold ret, throw; eauto. }
  destruct Hbody as [[d Hd] | [e He]];
    [rewrite Hd in Hrun | rewrite He in Hrun; injection Hrun as <- <-; reflexivity].
  unfold bind at 1 in Hrun.
  pose proof (in_env_world (processResponseInterceptors client
    (VResult d (Response.status response) (Response.statusText response)
       (Response.headers response) config)) w1) as [Hl2 _].
  destruct (in_env (processResponseInterceptors client
    (VResult d (Response.status response) (Response.statusText response)
       (Response.headers response) config)) w1) as [[v | e] w2] eqn:Echain;
    simpl in Hl2;
    rewrite (in_world_run _ {| this := this s; world := w1 |} _ _ Echain) in Hrun;
    [| injection Hrun as <- <-; simpl; exact Hl2].
  unfold bind at 1 in Hrun.
  destruct (cacheable config); simpl in Hrun; injection Hrun as <- <-; simpl;
    exact Hl2.
Qed.

Lemma request_uncacheable path options s config w0 :
  in_env (processRequestInterceptors (this s) (build_config (this s) options))
         (world s) = (Normal config, w0) ->
  cacheable config = false ->
  cache (this (snd (request path options s))) = cache (this s)
  /\ exists n,
       fetch_log (world (snd (request path options s)))
       = fetch_log (world s) ++ repeat (fullUrl (this s) path, config) (S n).
Proof.
  intros E0 Hno. rewrite request_stages, E0.
  rewrite (cache_check_uncacheable _ _ _ Hno).
  pose proof (in_env_world
    (processRequestInterceptors (this s) (build_config (this s) options))
    (world s)) as [Hl0 _].
  rewrite E0 in Hl0. simpl in Hl0.
  unfold try_catch.
  destruct (try_block (this s) (fullUrl (this s) path) config
              {| this := this s; world := w0 |}) as [[v | err] s2] eqn:Etry;
    destruct (try_block_spec _ _ _ _ _ _ Etry) as (k & Hlog & _ & Hcache);
    simpl in Hlog, Hcache; rewrite Hl0 in Hlog.
  - simpl. rewrite Hno in Hcache. eauto.
  - destruct (catch_block (this s) config err s2) as [res s3] eqn:Ecatch.
    destruct (catch_block_spec _ _ _ _ _ _ Ecatch) as (Hl3 & Ht3 & _).
    simpl. rewrite Ht3, Hl3, Hcache. eauto.
Qed.

(** X5. A call whose config, as the request interceptors leave it, has
    [cache: false] or a method other than GET neither reads nor changes the
    cache, and always goes to the network. *)
Theorem uncacheable_request_bypasses_cache path options s config w0 :
  in_env (processRequestInterceptors (this s) (build_config (this s) options))
         (world s) = (Normal config, w0) ->
  Config.method config <> "GET" \/ Config.cache config = Some false ->
  cache (this (snd (request path options s))) = cache (this s)
  /\ exists n,
       fetch_log (world (snd (request path options s)))
       = fetch_log (world s) ++ repeat (fullUrl (this s) path, config) (S n).
Proof.
  intros E0 Hno. apply (request_uncacheable path options s config w0 E0).
  unfold cacheable. destruct Hno as [Hm | Hc].
  - apply String.eqb_neq in Hm. rewrite Hm. reflexivity.
  - rewrite Hc. apply andb_false_r.
Qed.

(** X6. No call fetches more than [1 + retryCount] times. *)
Theorem request_dispatch_bound path options s :
  (length (fetch_log (world (snd (request path options s))))
   <= length (fetch_log (world s)) + 1 + retryCount (this s))%nat.
Proof.
  rewrite request_stages.
  pose proof (in_env_world
    (processRequestInterceptors (this s) (build_config (this s) options))
    (world s)) as [Hl0 _].
  destruct (in_env _ (world s)) as [[config | err] w0]; simpl in Hl0;
    [| simpl; rewrite Hl0; lia].
  destruct (cache_check_spec (fullUrl (this s) path) config
              {| this := this s; world := w0 |})
    as (hit & s1 & -> & Hw1 & _ & _). simpl in Hw1.
  destruct hit as [cached |]; [simpl; rewrite Hw1, Hl0; lia |].
  assert (Htry : (length (fetch_log (world (snd
            (try_block (this s) (fullUrl (this s) path) config s1))))
          <= length (fetch_log (world s)) + 1 + retryCount (this s))%nat).
  { rewrite try_block_log.
    destruct (requestWithRetry_log (this s) (fullUrl (this s) path) config
                (retryCount (this s) - 0)%nat 0%nat (world s1) eq_refl)
      as (k & Hk & -> & _).
    rewrite length_app, repeat_length, Hw1, Hl0. lia. }
  unfold try_catch.
  destruct (try_block (this s) (fullUrl (this s) path) config s1)
    as [[v | err] s2]; simpl in Htry; [exact Htry |].
  destruct (catch_block (this s) config err s2) as [res s3] eqn:Ecatch.
  destruct (catch_block_spec _ _ _ _ _ _ Ecatch) as (Hl3 & _).
  simpl. rewrite Hl3. exact Htry.
Qed.

End PipelineMore.

(** The README's PATCH call: the cache stays empty and the network is
    asked. *)
Lemma uncacheable_request_bypasses_cache_witness :
  let r := HttpClient.request "/custom" Sample.custom_options
             (Sample.state Sample.client (Sample.always 200 "OK")) in
  HttpClient.cache (HttpClient.this (snd r)) = ∅
  /\ exists n,
       fetch_log (HttpClient.world (snd r))
       = repeat ("/api/custom",
                 HttpClient.build_config Sample.client Sample.custom_options)
                (S n).
Proof.
  exact (uncacheable_request_bypasses_cache "/custom" Sample.custom_options
           (Sample.state Sample.client (Sample.always 200 "OK"))
           (HttpClient.build_config Sample.client Sample.custom_options)
           (Sample.world (Sample.always 200 "OK")) eq_refl
           (or_intror eq_refl)).
Defined.

(** ** What a call does to the interceptors' environment *)

Section Frame.

Import HttpClient.

Variable P : Env -> Prop.
Hypothesis P_clock : forall e t, P e -> P (set_now t e).

Lemma attempt_env this url options w :
  P (env w) -> P (env (snd (attempt this url options w))).
Proof.
  intros H. destruct (attempt_spec this url options w) as [ms ->]. simpl.
  apply P_clock. exact H.
Qed.

Lemma requestWithRetry_env this url options :
  forall n retryCount w,
    (HttpClient.retryCount this - retryCount = n)%nat ->
    P (env w) -> P (env (snd (requestWithRetry this url options retryCount w))).
Proof.
  induction n as [| n IH]; intros r w Hn Hw;
    rewrite requestWithRetry_equation_1;
    pose proof (attempt_env this url options w Hw) as Ha;
    destruct (attempt this url options w) as [[response | e] w1];
    simpl in Ha |- *; try exact Ha;
    destruct (lt_dec r (HttpClient.retryCount this)); simpl; try exact Ha;
    try lia.
  destruct (shouldRetry e); simpl; [| exact Ha].
  apply IH; [lia |]. simpl. apply P_clock. exact Ha.
Qed.

(** A property of the environment that the passing of time does not break
    and that both interceptor chains keep is kept by [request]: besides
    reading the clock and waiting, the client touches the environment only
    through its interceptors. *)
Lemma request_env_invariant path options s :
  (forall x e, P e -> P (snd (processRequestInterceptors (this s) x e))) ->
  (forall x e, P e -> P (snd (processResponseInterceptors (this s) x e))) ->
  P (env (world s)) ->
  P (env (world (snd (request path options s)))).
Proof.
  intros Hreq Hresp Hs. rewrite request_stages.
  assert (Hin : forall A (m : M Env A) w,
            (forall e, P e -> P (snd (m e))) -> P (env w) ->
            P (env (snd (in_env m w)))).
  { intros A m w Hm Hw. unfold in_env. specialize (Hm _ Hw).
    destruct (m (env w)). exact Hm. }
  pose proof (Hin _ (processRequestInterceptors (this s)
                       (build_config (this s) options)) (world s)
                (Hreq _) Hs) as H0.
  destruct (in_env _ (world s)) as [[config | err] w0]; simpl in H0;
    [| exact H0].
  destruct (cache_check_spec (fullUrl (this s) path) config
              {| this := this s; world := w0 |})
    as (hit & s1 & -> & Hw1 & _ & _). simpl in Hw1.
  destruct hit as [cached |]; [simpl; rewrite Hw1; exact H0 |].
  assert (Hcatch : forall err s2, P (env (world s2)) ->
            P (env (world (snd (catch_block (this s) config err s2))))).
  { intros err s2 H2. unfold catch_block. unfold bind at 1.
    pose proof (Hin _ (processResponseInterceptors (this s) VNull) (world s2)
                  (Hresp _) H2) as H3.
    destruct (in_env _ (world s2)) as [[v | e] w3] eqn:E3; simpl in H3;
      rewrite (in_world_run _ _ _ _ E3); [| exact H3].
    unfold bind, prop, ret, throw.
    destruct (get_prop err "message"); [| exact H3].
    destruct (get_prop err "status"); exact H3. }
  assert (Htry : P (env (world (snd
            (try_block (this s) (fullUrl (this s) path) config s1))))).
  { unfold try_block. unfold bind at 1.
    pose proof (requestWithRetry_env (this s) (fullUrl (this s) path) config
                  _ 0%nat (world s1) eq_refl ltac:(rewrite Hw1; exact H0)) as H1.
    destruct (requestWithRetry _ _ config 0 (world s1))
      as [[response | err] w1] eqn:Erun; simpl in H1;
      rewrite (in_world_run _ _ _ _ Erun); [| exact H1].
    unfold bind at 1.
    set (body := if is_json _ then _ else _).
    assert (Hbody : (exists d, forall s0 : St, body s0 = (Normal d, s0))
                    \/ exists e, forall s0 : St, body s0 = (Throw e, s0)).
    { subst body. unfold read_body.
      destruct (is_json _);
        [destruct (Response.json response) | destruct (Response.text response)];
        unfold ret, throw; eauto. }
    destruct Hbody as [[d Hd] | [e He]]; [rewrite Hd | rewrite He; exact H1].
    unfold bind at 1.
    pose proof (Hin _ (processResponseInterceptors (this s)
      (VResult d (Response.status response) (Response.statusText response)
         (Response.headers response) config)) w1 (Hresp _) H1) as H2.
    destruct (in_env _ w1) as [[v | e] w2] eqn:Echain; simpl in H2;
      rewrite (in_world_run _ {| this := this s1; world := w1 |} _ _ Echain);
      [| exact H2].
    unfold bind at 1. destruct (cacheable config); exact H2. }
  unfold try_catch.
  destruct (try_block (this s) (fullUrl (this s) path) config s1)
    as [[v | err] s2]; simpl in Htry; [exact Htry |].
  apply Hcatch. exact Htry.
Qed.

End Frame.

(** ** The default interceptors in the pipeline *)

Section Defaults.

Import HttpClient.

(** Neither default stage changes the environment, whatever it is given:
    the response stage's [rejected] handler only ever sees the TypeError of a
    failed property read, which has no [status]. *)
Lemma default_request_stage_env host x e :
  snd (stage (httpPlugin.default_request_stage host) x e) = e.
Proof.
  unfold stage, try_catch, httpPlugin.default_request_stage. simpl.
  unfold httpPlugin.defaultRequestFulfilled, bind.
  destruct (_ && _); simpl.
  - destruct (URL_parse host _ _); reflexivity.
  - reflexivity.
Qed.

Lemma default_response_stage_env x e :
  snd (stage httpPlugin.default_response_stage x e) = e.
Proof.
  unfold stage, try_catch, httpPlugin.default_response_stage. simpl.
  unfold httpPlugin.defaultResponseFulfilled, bind, prop.
  destruct x; reflexivity.
Qed.

(** X7. With the default interceptors, no call changes [localStorage]: the
    stored token is never cleared, whatever the response status. *)
Theorem token_is_never_cleared host path options s :
  interceptors_request (this s) = [httpPlugin.default_request_stage host] ->
  interceptors_response (this s) = [httpPlugin.default_response_stage] ->
  localStorage (env (world (snd (request path options s))))
  = localStorage (env (world s)).
Proof.
  intros Hreq Hresp.
  apply (request_env_invariant
           (fun e => localStorage e = localStorage (env (world s)))).
  - intros e t H. exact H.
  - intros x e H. unfold processRequestInterceptors. rewrite Hreq. simpl.
    unfold bind.
    pose proof (default_request_stage_env host x e) as Hs.
    destruct (stage _ x e) as [[c | err] e1]; simpl in Hs |- *; subst e1; exact H.
  - intros x e H. unfold processResponseInterceptors. rewrite Hresp. simpl.
    unfold bind.
    pose proof (default_response_stage_env x e) as Hs.
    destruct (stage _ x e) as [[c | err] e1]; simpl in Hs |- *; subst e1; exact H.
  - reflexivity.
Qed.

(** What the default request stage returns when the browser holds a
    token. *)
Lemma default_request_stage_token host x e tk :
  window_defined e = true ->
  localStorage e !! "auth_token" = Some tk ->
  Str.nonempty tk = true ->
  (exists err, fst (stage (httpPlugin.default_request_stage host) x e) = Throw err)
  \/ exists c,
       fst (stage (httpPlugin.default_request_stage host) x e) = Normal c
       /\ Config.headers c !! "Authorization" = Some ("Bearer " +:+ tk).
Proof.
  intros Hw Htk Hne.
  unfold stage, try_catch, httpPlugin.default_request_stage. simpl.
  unfold httpPlugin.defaultRequestFulfilled, httpPlugin.getAuthToken, bind, gets.
  destruct (_ && _); simpl.
  - destruct (URL_parse host _ _); simpl; [| left; eauto].
    rewrite Hw, Htk, Hne. right. eexists. split; [reflexivity |].
    simpl. apply lookup_insert_eq.
  - rewrite Hw, Htk, Hne. right. eexists. split; [reflexivity |].
    simpl. apply lookup_insert_eq.
Qed.

(** X8. In a browser that holds a token, every dispatch of a client with the
    default request interceptor carries [Authorization: Bearer <token>]. *)
Theorem token_is_sent_with_every_dispatch host path options s tk :
  interceptors_request (this s) = [httpPlugin.default_request_stage host] ->
  window_defined (env (world s)) = true ->
  localStorage (env (world s)) !! "auth_token" = Some tk ->
  Str.nonempty tk = true ->
  exists calls,
    fetch_log (world (snd (request path options s))) = fetch_log (world s) ++ calls
    /\ Forall (fun call =>
                 Config.headers (snd call) !! "Authorization"
                 = Some ("Bearer " +:+ tk)) calls.
Proof.
  intros Hreq Hw Htk Hne.
  destruct (request path options s) as [res s'] eqn:Hrun. simpl.
  destruct (in_env (processRequestInterceptors (this s)
                      (build_config (this s) options)) (world s))
    as [[config | err] w0] eqn:E0.
  - destruct (request_after_chain _ _ _ _ _ _ _ E0 Hrun) as (n & Hlog & _).
    eexists. split; [exact Hlog |]. apply Forall_forall.
    intros call Hin. apply list_elem_of_In, repeat_spec in Hin. subst call. simpl.
    unfold in_env, processRequestInterceptors in E0. rewrite Hreq in E0.
    simpl in E0. unfold bind in E0.
    destruct (default_request_stage_token host (build_config (this s) options)
                (env (world s)) tk Hw Htk Hne) as [[err Hs] | (c & Hs & Hauth)];
      destruct (stage _ _ (env (world s))) as [[c' | err'] e1];
      simpl in Hs; try discriminate; injection Hs as ->.
    injection E0 as <- _. exact Hauth.
  - rewrite (request_chain_throws _ _ _ _ _ E0) in Hrun.
    injection Hrun as <- <-. exists []. simpl.
    pose proof (in_env_world
      (processRequestInterceptors (this s) (build_config (this s) options))
      (world s)) as [Hl _].
    rewrite E0 in Hl. simpl in Hl. rewrite Hl, app_nil_r. auto.
Qed.

(** X9. A failure in the [try] block of a client without response interceptors
    reaches the caller as the normalized object, and its [status] is 0 even
    when the failure is an HTTP status: the [Error] built from the response
    carries the status in its message only. *)
Theorem failure_is_normalized_with_status_0 path options s config w0 s1 e w1 :
  in_env (processRequestInterceptors (this s) (build_config (this s) options))
         (world s) = (Normal config, w0) ->
  cache_check (fullUrl (this s) path) config {| this := this s; world := w0 |}
  = (Normal None, s1) ->
  requestWithRetry (this s) (fullUrl (this s) path) config 0 (world s1)
  = (Throw (VError e), w1) ->
  interceptors_response (this s) = [] ->
  request path options s
  = (Throw (VNormalized (VStr (message e)) (VNum 0) config (VError e)),
     {| this := this s1; world := w1 |}).
Proof.
  intros E0 Hcheck Erun Hresp.
  rewrite request_stages, E0, Hcheck.
  unfold try_catch, try_block. unfold bind at 1.
  rewrite (in_world_run _ _ _ _ Erun).
  unfold catch_block, processResponseInterceptors. rewrite Hresp. simpl.
  unfold bind, in_world, in_env, ret, prop, throw. simpl.
  destruct w1 as [e1 l1 n1]. reflexivity.
Qed.

End Defaults.

(** A browser holding a token, a DELETE answered 401: the token is still
    there. *)
Lemma token_is_never_cleared_witness :
  localStorage (env (HttpClient.world (snd
    (HttpClient.request "/user/123"
       (HttpClient.with_method Options.empty "DELETE")
       (Sample.browser_state (Sample.installed_client Sample.host)
          (Sample.always 401 "Unauthorized"))))))
  = {[ "auth_token" := "abc" ]}.
Proof.
  exact (token_is_never_cleared Sample.host "/user/123"
           (HttpClient.with_method Options.empty "DELETE")
           (Sample.browser_state (Sample.installed_client Sample.host)
              (Sample.always 401 "Unauthorized")) eq_refl eq_refl).
Defined.

Lemma token_is_sent_with_every_dispatch_witness :
  exists calls,
    fetch_log (HttpClient.world (snd
      (HttpClient.request "/user/123"
         (HttpClient.with_method Options.empty "DELETE")
         (Sample.browser_state (Sample.installed_client Sample.host)
            (Sample.always 200 "OK"))))) = [] ++ calls
    /\ Forall (fun call =>
                 Config.headers (snd call) !! "Authorization"
                 = Some ("Bearer " +:+ "abc")) calls.
Proof.
  exact (token_is_sent_with_every_dispatch Sample.host "/user/123"
           (HttpClient.with_method Options.empty "DELETE")
           (Sample.browser_state (Sample.installed_client Sample.host)
              (Sample.always 200 "OK")) "abc"
           eq_refl eq_refl eq_refl eq_refl).
Defined.

Lemma failure_is_normalized_with_status_0_witness :
  fst (HttpClient.request "/user/123"
         (HttpClient.with_method Options.empty "DELETE")
         (Sample.state Sample.client (Sample.always 404 "Not Found")))
  = Throw (VNormalized (VStr "HTTP 404: Not Found") (VNum 0)
             (HttpClient.build_config Sample.client
                (HttpClient.with_method Options.empty "DELETE"))
             (VError (HttpClient.HttpError (Sample.response 404 "Not Found")))).
Proof.
  set (s := Sample.state Sample.client (Sample.always 404 "Not Found")).
  set (config := HttpClient.build_config Sample.client
                   (HttpClient.with_method Options.empty "DELETE")).
  rewrite (failure_is_normalized_with_status_0 "/user/123"
             (HttpClient.with_method Options.empty "DELETE") s config
             (HttpClient.world s) s
             (HttpClient.HttpError (Sample.response 404 "Not Found"))
             (snd (HttpClient.requestWithRetry Sample.client "/api/user/123"
                     config 0 (HttpClient.world s)))
             eq_refl eq_refl eq_refl eq_refl).
  reflexivity.
Defined.

(** ** Registering interceptors and building the config *)

Section Registration.

Import HttpClient.

(** X10. Interceptors run in registration order: a newly added request
    interceptor is the last stage of the chain, fed what the earlier stages
    produce and not run when one of them throws; likewise for response
    interceptors.  Adding to one chain leaves the other as it was. *)
Theorem added_interceptor_runs_last this f r f' r' config response e :
  processRequestInterceptors (addRequestInterceptor f r this) config e
  = match processRequestInterceptors this config e with
    | (Normal c, e1) => stage {| fulfilled := f; rejected := r |} c e1
    | (Throw err, e1) => (Throw err, e1)
    end
  /\ processResponseInterceptors (addResponseInterceptor f' r' this) response e
     = match processResponseInterceptors this response e with
       | (Normal v, e1) => stage {| fulfilled := f'; rejected := r' |} v e1
       | (Throw err, e1) => (Throw err, e1)
       end
  /\ processResponseInterceptors (addRequestInterceptor f r this) response e
     = processResponseInterceptors this response e
  /\ processRequestInterceptors (addResponseInterceptor f' r' this) config e
     = processRequestInterceptors this config e.
Proof.
  assert (Hlast : forall A (s : Interceptor A) x e0,
            runInterceptors [s] x e0 = stage s x e0).
  { intros A s x e0. simpl. unfold bind, ret.
    destruct (stage s x e0) as [[y | err] e1]; reflexivity. }
  unfold processRequestInterceptors, processResponseInterceptors. simpl.
  rewrite !runInterceptors_app.
  split; [| split; [| split; reflexivity]].
  - destruct (runInterceptors _ config e) as [[c | err] e1];
      [apply Hlast | reflexivity].
  - destruct (runInterceptors _ response e) as [[v | err] e1];
      [apply Hlast | reflexivity].
Qed.

(** X11. Without per-call headers, the config carries every default header of
    the client, a [Content-Type] in any case ([application/json] unless the
    client's defaults name another), and nothing else. *)
Theorem default_headers_without_per_call_headers this options :
  Options.headers options = None ->
  forall k,
    Config.headers (build_config this options) !! k
    = match headers this !! k with
      | Some v => Some v
      | None => if decide (k = "Content-Type") then Some "application/json"
                else None
      end.
Proof.
  intros Hnone k. rewrite build_config_headers_default by exact Hnone.
  rewrite lookup_union. destruct (headers this !! k) as [v |] eqn:E; simpl.
  - destruct ({[ "Content-Type" := "application/json" ]} !! k); reflexivity.
  - destruct (decide (k = "Content-Type")) as [-> | Hne].
    + rewrite lookup_singleton_eq. reflexivity.
    + rewrite lookup_singleton_ne by congruence. reflexivity.
Qed.

(** X12. [post] and [put] fix the method after spreading the caller's config, so
    a [method] in that config is ignored; on a client without request
    interceptors the call is therefore never served from the cache and
    never written to it, and every dispatch carries the serialized body. *)
Theorem post_put_bypass_cache stringify url data config s :
  interceptors_request (this s) = [] ->
  (let r := post stringify url data config s in
   cache (this (snd r)) = cache (this s)
   /\ exists n sent,
        fetch_log (world (snd r))
        = fetch_log (world s) ++ repeat (fullUrl (this s) url, sent) (S n)
        /\ Config.method sent = "POST"
        /\ Config.body sent = stringify data)
  /\
  (let r := put stringify url data config s in
   cache (this (snd r)) = cache (this s)
   /\ exists n sent,
        fetch_log (world (snd r))
        = fetch_log (world s) ++ repeat (fullUrl (this s) url, sent) (S n)
        /\ Config.method sent = "PUT"
        /\ Config.body sent = stringify data).
Proof.
  intros Hreq.
  assert (Hgen : forall m, (m = "POST" \/ m = "PUT") ->
    let r := request url (with_method_body config m (stringify data)) s in
    cache (this (snd r)) = cache (this s)
    /\ exists n sent,
         fetch_log (world (snd r))
         = fetch_log (world s) ++ repeat (fullUrl (this s) url, sent) (S n)
         /\ Config.method sent = m
         /\ Config.body sent = stringify data).
  { intros m Hm r. subst r.
    set (sent := build_config (this s)
                   (with_method_body config m (stringify data))).
    assert (E0 : in_env (processRequestInterceptors (this s) sent) (world s)
                 = (Normal sent, world s)).
    { unfold in_env, processRequestInterceptors. rewrite Hreq. simpl.
      destruct (world s). reflexivity. }
    assert (Hno : cacheable sent = false).
    { unfold cacheable, sent. simpl. destruct Hm as [-> | ->]; reflexivity. }
    destruct (request_uncacheable url
                (with_method_body config m (stringify data)) s sent (world s)
                E0 Hno) as (Hcache & n & Hlog).
    split; [exact Hcache |]. exists n, sent. auto. }
  split; [apply (Hgen "POST") | apply (Hgen "PUT")]; auto.
Qed.


End Registration.

(** [$http.post('/users', data, { method: 'GET' })] is still a POST and is
    not cached. *)
Lemma post_put_bypass_cache_witness :
  let r := HttpClient.post (fun _ => Some "{}") "/users" VNull
             (HttpClient.with_method Options.empty "GET")
             (Sample.state Sample.client (Sample.always 200 "OK")) in
  HttpClient.cache (HttpClient.this (snd r)) = ∅
  /\ exists n sent,
       fetch_log (HttpClient.world (snd r))
       = [] ++ repeat ("/api/users", sent) (S n)
       /\ Config.method sent = "POST"
       /\ Config.body sent = Some "{}".
Proof.
  exact (proj1 (post_put_bypass_cache (fun _ => Some "{}") "/users" VNull
                  (HttpClient.with_method Options.empty "GET")
                  (Sample.state Sample.client (Sample.always 200 "OK"))
                  eq_refl)).
Defined.

Lemma default_headers_without_per_call_headers_witness :
  Config.headers (HttpClient.build_config Sample.client Options.empty)
    !! "X-Client" = Some "Vue-SSR"
  /\ Config.headers (HttpClient.build_config Sample.client Options.empty)
       !! "Content-Type" = Some "application/json".
Proof.
  split.
  - exact (default_headers_without_per_call_headers Sample.client Options.empty
             eq_refl "X-Client").
  - exact (default_headers_without_per_call_headers Sample.client Options.empty
             eq_refl "Content-Type").
Defined.



(** ** The data store *)

Section StoreMore.

Context {V : Type}.
Implicit Types (this : SSRDataStore.t V) (o l m : list (string * V)).

(** X14. What [set] writes, [get] and [has] read back, and no other key is
    affected. *)
Theorem store_set_get this key data other :
  SSRDataStore.get other (SSRDataStore.set key data this)
  = (if decide (key = other) then Some data else SSRDataStore.get other this)
  /\ SSRDataStore.has other (SSRDataStore.set key data this)
     = (if decide (key = other) then true else SSRDataStore.has other this).
Proof.
  unfold SSRDataStore.has, SSRDataStore.get, JsMap.has. simpl.
  destruct (decide (key = other)) as [<- | Hne].
  - rewrite JsMap_get_set_eq. auto.
  - rewrite JsMap_get_set_ne by exact Hne. auto.
Qed.

(** Writing a list of entries with distinct keys: each key of the list
    reads its value from the list, every other key is as before. *)
Lemma fold_set_get l :
  forall m key,
    NoDup (JsMap.keys l) ->
    JsMap.get key (fold_left (fun o kv => JsMap.set (fst kv) (snd kv) o) l m)
    = match JsMap.get key l with
      | Some v => Some v
      | None => JsMap.get key m
      end.
Proof.
  induction l as [| [k v] l IH]; intros m key Hnd; simpl; [reflexivity |].
  simpl in Hnd. apply NoDup_cons in Hnd as [Hk Hnd].
  rewrite IH by exact Hnd.
  destruct (String.eqb k key) eqn:E.
  - apply String.eqb_eq in E. subst key.
    destruct (JsMap.get k l) as [v' |] eqn:El.
    + exfalso. apply Hk. apply JsMap_get_Some in El; [| exact Hnd].
      apply list_elem_of_fmap. exists (k, v'). auto.
    + apply JsMap_get_set_eq.
  - apply String.eqb_neq in E.
    destruct (JsMap.get key l); [reflexivity |].
    apply JsMap_get_set_ne. exact E.
Qed.

Lemma setState_store (state : JsObject.t V) this :
  SSRDataStore.store (SSRDataStore.setState (Some state) this)
  = fold_left (fun o kv => JsMap.set (fst kv) (snd kv) o)
              (JsObject.entries state) (SSRDataStore.store this).
Proof.
  unfold SSRDataStore.setState.
  generalize (JsObject.entries state). intros l. revert this.
  induction l as [| kv l IH]; intros this; simpl; [reflexivity |]. apply IH.
Qed.

Lemma entries_get (o : list (string * V)) key :
  NoDup (JsMap.keys o) -> JsMap.get key (JsObject.entries o) = JsMap.get key o.
Proof.
  intros Hnd.
  assert (Hnd' : NoDup (JsMap.keys (JsObject.entries o)))
    by (unfold JsMap.keys; rewrite (entries_perm o); exact Hnd).
  destruct (JsMap.get key o) as [v |] eqn:E.
  - apply JsMap_get_Some; [exact Hnd' |]. rewrite entries_perm.
    apply JsMap_get_Some; assumption.
  - destruct (JsMap.get key (JsObject.entries o)) as [v |] eqn:E';
      [| reflexivity].
    apply JsMap_get_Some in E'; [| exact Hnd']. rewrite entries_perm in E'.
    apply JsMap_get_Some in E'; [| exact Hnd]. congruence.
Qed.

Lemma setState_get_merge (state : JsObject.t V) this key :
  NoDup (JsMap.keys state) ->
  SSRDataStore.get key (SSRDataStore.setState (Some state) this)
  = match JsMap.get key state with
    | Some v => Some v
    | None => SSRDataStore.get key this
    end.
Proof.
  intros Hnd. unfold SSRDataStore.get. rewrite setState_store.
  rewrite fold_set_get.
  - rewrite entries_get by exact Hnd. reflexivity.
  - unfold JsMap.keys. rewrite (entries_perm state). exact Hnd.
Qed.

(** X15. [setState] merges: a key of the given object takes the object's value,
    replacing what the store had; every other key keeps its value.  A
    falsy or non-object argument changes nothing. *)
Theorem setState_merges (state : JsObject.t V) this key :
  NoDup (JsMap.keys state) ->
  SSRDataStore.get key (SSRDataStore.setState (Some state) this)
  = match JsMap.get key state with
    | Some v => Some v
    | None => SSRDataStore.get key this
    end
  /\ SSRDataStore.setState None this = this.
Proof.
  intros Hnd. split; [apply setState_get_merge; exact Hnd | reflexivity].
Qed.

End StoreMore.

(** X16. In a browser whose [window.__SSR_DATA__] is [state], [install] merges
    [state] into the shared store: afterwards the application reads
    [state]'s value for each of its keys, also where the store had been
    given another value before, and the store's own value for the rest. *)
Theorem install_hydrates_in_browser l host app options p a p' state store key :
  httpPlugin.in_browser p = true ->
  httpPlugin.window_SSR_DATA p = Some state ->
  NoDup (JsMap.keys state) ->
  httpPlugin.stores p !! l = Some store ->
  httpPlugin.install l host app options p = (a, p') ->
  httpPlugin.ssrData_get a key p'
  = match JsMap.get key state with
    | Some v => Some v
    | None => SSRDataStore.get key store
    end.
Proof.
  intros Hb Hw Hnd Hl Hinst. unfold httpPlugin.install in Hinst.
  rewrite Hb, Hw in Hinst. simpl in Hinst. injection Hinst as <- <-.
  unfold httpPlugin.ssrData_get. simpl.
  rewrite lookup_alter_eq, Hl. simpl.
  apply setState_get_merge. exact Hnd.
Qed.

Lemma setState_merges_witness :
  SSRDataStore.get "user"
    (SSRDataStore.setState (Some [("user", VNum 1)]) Sample.prefetched)
  = Some (VNum 1)
  /\ SSRDataStore.get "posts"
       (SSRDataStore.setState (Some [("user", VNum 1)]) Sample.prefetched)
     = Some (VObject []).
Proof.
  assert (Hnd : NoDup (JsMap.keys [("user", VNum 1)]))
    by (apply NoDup_singleton).
  split.
  - exact (proj1 (setState_merges [("user", VNum 1)] Sample.prefetched "user" Hnd)).
  - exact (proj1 (setState_merges [("user", VNum 1)] Sample.prefetched "posts" Hnd)).
Defined.

Lemma install_hydrates_in_browser_witness :
  let r := httpPlugin.install 1 Sample.host Sample.bare_app
             Sample.no_ctor_options Sample.hydrating_browser in
  httpPlugin.ssrData_get (fst r) "user" (snd r) = Some (VNum 1)
  /\ httpPlugin.ssrData_get (fst r) "draft" (snd r) = Some (VStr "x").
Proof.
  cbv zeta.
  assert (Hnd : NoDup (JsMap.keys [("user", VNum 1)]))
    by (apply NoDup_singleton).
  split.
  - exact (install_hydrates_in_browser 1 Sample.host Sample.bare_app
             Sample.no_ctor_options Sample.hydrating_browser _ _
             [("user", VNum 1)] _ "user" eq_refl eq_refl Hnd eq_refl eq_refl).
  - exact (install_hydrates_in_browser 1 Sample.host Sample.bare_app
             Sample.no_ctor_options Sample.hydrating_browser _ _
             [("user", VNum 1)] _ "draft" eq_refl eq_refl Hnd eq_refl eq_refl).
Defined.

(** ** The application manager *)

Section Manager.

Import VueAppManager.

Context {A : Type}.

(** X17. [addPlugin] keeps the plugins' names distinct: a plugin whose name is
    already registered is ignored, which includes a second plugin without a
    name; any other plugin goes to the end of the list; a falsy argument is
    ignored. *)
Theorem addPlugin_keeps_names_distinct (plugin : option Plugin) (this : t A) :
  NoDup (map name (plugins this)) ->
  NoDup (map name (plugins (addPlugin plugin this)))
  /\ (forall p, plugin = Some p ->
        (name p ∈ map name (plugins this) -> addPlugin plugin this = this)
        /\ (name p ∉ map name (plugins this) ->
            plugins (addPlugin plugin this) = plugins this ++ [p]))
  /\ (plugin = None -> addPlugin plugin this = this).
Proof.
  intros Hnd.
  assert (Hex : forall p,
            existsb (fun q => same_plugin q p) (plugins this) = true
            <-> name p ∈ map name (plugins this)).
  { intros p. rewrite existsb_exists. split.
    - intros (q & Hin & Hq). unfold same_plugin in Hq.
      apply bool_decide_eq_true_1 in Hq. rewrite <- Hq.
      apply list_elem_of_fmap. exists q. split; [reflexivity |].
      apply list_elem_of_In. exact Hin.
    - intros Hin. apply list_elem_of_fmap in Hin as (q & Hq & Hin).
      exists q. split; [apply list_elem_of_In; exact Hin |].
      unfold same_plugin. apply bool_decide_eq_true_2. congruence. }
  destruct plugin as [p |]; simpl;
    [| split; [exact Hnd | split; [discriminate | reflexivity]]].
  destruct (existsb (fun q => same_plugin q p) (plugins this)) eqn:E.
  - split; [exact Hnd |]. split; [| discriminate].
    intros p' [= <-]. split; [reflexivity |].
    intros Hnot. exfalso. apply Hnot. apply Hex. exact E.
  - assert (Hnot : name p ∉ map name (plugins this)).
    { intros Hin. apply Hex in Hin. congruence. }
    simpl. split; [| split; [| discriminate]].
    + rewrite map_app. apply NoDup_app. split; [exact Hnd |]. split.
      * intros x Hx Hx'. simpl in Hx'. apply list_elem_of_singleton in Hx'.
        subst x. contradiction.
      * apply NoDup_singleton.
    + intros p' [= <-]. split; [contradiction | reflexivity].
Qed.

Lemma insert_by_rank_perm p l : insert_by_rank p l ≡ₚ p :: l.
Proof.
  induction l as [| q l IH]; simpl; [reflexivity |].
  destruct (rank p <=? rank q); [reflexivity |].
  rewrite IH. apply Permutation_swap.
Qed.

Lemma sort_perm l : sort l ≡ₚ l.
Proof.
  induction l as [| p l IH]; simpl; [reflexivity |].
  rewrite insert_by_rank_perm, IH. reflexivity.
Qed.

Lemma insert_by_rank_sorted p l :
  StronglySorted (fun a b => rank a <= rank b) l ->
  StronglySorted (fun a b => rank a <= rank b) (insert_by_rank p l).
Proof.
  induction 1 as [| q l Hs IH Hall]; simpl.
  - repeat constructor.
  - destruct (Z.leb_spec (rank p) (rank q)) as [Hle | Hgt].
    + constructor; [constructor; assumption |].
      constructor; [exact Hle |].
      eapply Forall_impl; [exact Hall |]. simpl. intros; lia.
    + constructor; [exact IH |].
      rewrite insert_by_rank_perm. constructor; [lia | exact Hall].
Qed.

Lemma sort_sorted l : StronglySorted (fun a b => rank a <= rank b) (sort l).
Proof.
  induction l as [| p l IH]; simpl; [constructor |].
  apply insert_by_rank_sorted. exact IH.
Qed.

Lemma insert_by_rank_stable r p l :
  List.filter (fun q => rank q =? r) (insert_by_rank p l)
  = List.filter (fun q => rank q =? r) (p :: l).
Proof.
  induction l as [| q l IH]; simpl; [reflexivity |].
  destruct (Z.leb_spec (rank p) (rank q)) as [Hle | Hgt]; [reflexivity |].
  simpl. rewrite IH. simpl.
  destruct (Z.eqb_spec (rank q) r) as [Hq | Hq];
    destruct (Z.eqb_spec (rank p) r) as [Hp | Hp]; try reflexivity.
  lia.
Qed.

Lemma sort_stable r l :
  List.filter (fun q => rank q =? r) (sort l)
  = List.filter (fun q => rank q =? r) l.
Proof.
  induction l as [| p l IH]; simpl; [reflexivity |].
  rewrite insert_by_rank_stable. simpl. rewrite IH. reflexivity.
Qed.

(** X18. [registerPlugins] on a manager that has an application: the plugin
    list is left sorted by priority (a missing priority counting as 0), with
    the same plugins, those of equal priority in the order they were added;
    and [app.use] runs once per plugin in that order, each on the state the
    one before it left, whether or not that one threw. *)
Theorem registerPlugins_in_priority_order (use : Plugin -> M A unit)
    (this : t A) (a : A) :
  app this = Some a ->
  let sorted := plugins (registerPlugins use this) in
  sorted ≡ₚ plugins this
  /\ StronglySorted (fun p q => rank p <= rank q) sorted
  /\ (forall r, List.filter (fun q => rank q =? r) sorted
                = List.filter (fun q => rank q =? r) (plugins this))
  /\ app (registerPlugins use this)
     = Some (fold_left (fun a p => snd (use p a)) sorted a).
Proof.
  intros Happ. unfold registerPlugins. rewrite Happ. simpl.
  split; [apply sort_perm |]. split; [apply sort_sorted |].
  split; [intros r; apply sort_stable |].
  f_equal. clear Happ. generalize (sort (plugins this)). intros l. revert a.
  induction l as [| p l IH]; intros a; simpl; [reflexivity |].
  assert (Hsame : snd (try_catch (use p) (fun _ => ret tt) a) = snd (use p a)).
  { unfold try_catch. destruct (use p a) as [[[] | err] a']; reflexivity. }
  rewrite Hsame. apply IH.
Qed.

End Manager.

(** ** src/SSR/plugins/http.js: a data store per installation *)

Section PerInstallStores.

Import HttpJs.

Lemma fresh_is_free (p : Process) : stores p !! fresh p = None.
Proof.
  assert (Hmax : forall k, k ∈ dom (stores p) ->
            (k <= set_fold Nat.max 0%nat (dom (stores p)))%nat).
  { apply (set_fold_ind_L
             (fun r (X : gset nat) => forall k, k ∈ X -> (k <= r)%nat)).
    - intros k Hk. apply elem_of_empty in Hk. contradiction.
    - intros x X r _ IH k Hk.
      apply elem_of_union in Hk as [Hk | Hk].
      + apply elem_of_singleton in Hk. subst k. lia.
      + specialize (IH k Hk). lia. }
  apply not_elem_of_dom. intros Hin. specialize (Hmax _ Hin).
  unfold fresh in Hmax. lia.
Qed.

(** X19. In http.js every [install] creates a data store of its own: two
    installations get different stores, and what is written through one
    application is read back through it and is not seen through the
    other. *)
Theorem http_js_installations_have_own_stores
    app1 options1 p a1 p1 app2 options2 a2 p2 key value :
  install app1 options1 p = (a1, p1) ->
  install app2 options2 p1 = (a2, p2) ->
  ssrData a1 <> ssrData a2
  /\ ssrData_get a1 key (ssrData_set a1 key value p2) = Some value
  /\ ssrData_get a2 key (ssrData_set a1 key value p2) = None
  /\ ssrData_get a1 key (ssrData_set a2 key value p2) = None.
Proof.
  unfold install. intros [= <- <-] [= <- <-]. simpl.
  set (l1 := fresh p).
  set (p1 := {| stores := <[l1 := new_SSRDataStore]> (stores p) |}).
  set (l2 := fresh p1).
  assert (Hne : l1 <> l2).
  { intros Heq. pose proof (fresh_is_free p1) as Hfree. fold l2 in Hfree.
    rewrite <- Heq in Hfree. unfold p1 in Hfree. simpl in Hfree.
    rewrite lookup_insert_eq in Hfree. discriminate. }
  unfold ssrData_get, ssrData_set. simpl.
  split; [congruence |]. split; [| split].
  - rewrite lookup_alter_eq, lookup_insert_ne, lookup_insert_eq by congruence.
    simpl. apply JsMap_get_set_eq.
  - rewrite lookup_alter_ne, lookup_insert_eq by congruence. reflexivity.
  - rewrite lookup_alter_ne, lookup_insert_ne, lookup_insert_eq by congruence.
    reflexivity.
Qed.

End PerInstallStores.

(** Adding the HTTP plugin a second time changes nothing. *)
Lemma addPlugin_keeps_names_distinct_witness :
  VueAppManager.addPlugin (Some Sample.http_plugin)
    (VueAppManager.addPlugin (Some Sample.http_plugin)
       (VueAppManager.constructor (A := unit)))
  = VueAppManager.addPlugin (Some Sample.http_plugin) VueAppManager.constructor.
Proof.
  assert (Hnd : NoDup (map VueAppManager.name
                         (VueAppManager.plugins
                            (VueAppManager.addPlugin (Some Sample.http_plugin)
                               (VueAppManager.constructor (A := unit))))))
    by (apply NoDup_singleton).
  destruct (addPlugin_keeps_names_distinct (Some Sample.http_plugin) _ Hnd)
    as (_ & Hadd & _).
  apply (Hadd Sample.http_plugin eq_refl). left.
Defined.

(** The plugin without a priority is used before the HTTP plugin, and the
    first one's failure does not keep the second from being used. *)
Lemma registerPlugins_in_priority_order_witness :
  VueAppManager.plugins
    (VueAppManager.registerPlugins Sample.failing_use Sample.manager)
  = [Sample.plain_plugin; Sample.http_plugin]
  /\ VueAppManager.app
       (VueAppManager.registerPlugins Sample.failing_use Sample.manager)
     = Some [Some "plain"; Some "HttpPlugin"].
Proof.
  destruct (registerPlugins_in_priority_order Sample.failing_use Sample.manager
              [] eq_refl) as (_ & _ & _ & Happ).
  split; [reflexivity |]. rewrite Happ. reflexivity.
Defined.

Lemma http_js_installations_have_own_stores_witness :
  HttpJs.ssrData (fst Sample.http_js_cycle1)
  <> HttpJs.ssrData (fst Sample.http_js_cycle2)
  /\ HttpJs.ssrData_get (fst Sample.http_js_cycle2) "user"
       (HttpJs.ssrData_set (fst Sample.http_js_cycle1) "user" (VNum 1)
          (snd Sample.http_js_cycle2))
     = None.
Proof.
  destruct (http_js_installations_have_own_stores
              Sample.http_js_app Sample.no_http_js_options
              {| HttpJs.stores := ∅ |}
              (fst Sample.http_js_cycle1) (snd Sample.http_js_cycle1)
              Sample.http_js_app Sample.no_http_js_options
              (fst Sample.http_js_cycle2) (snd Sample.http_js_cycle2)
              "user" (VNum 1) eq_refl eq_refl)
    as (Hne & _ & Hother & _).
  split; assumption.
Defined.

(** ** Stale and falsy cache entries *)

Section CacheEdges.

Import HttpClient.

Lemma try_catch_effects client full config s1 :
  let r := try_catch (try_block client full config) (catch_block client config) s1 in
  (exists n,
     fetch_log (world (snd r)) = fetch_log (world s1) ++ repeat (full, config) (S n))
  /\ match fst r with
     | Normal v =>
         cache (this (snd r))
         = if cacheable config
           then <[generateCacheKey full config :=
                    {| data := v; timestamp := now (env (world (snd r))) |}]>
                  (cache (this s1))
           else cache (this s1)
     | Throw _ => cache (this (snd r)) = cache (this s1)
     end.
Proof.
  cbv zeta. unfold try_catch.
  destruct (try_block client full config s1) as [[v | err] s2] eqn:Etry;
    destruct (try_block_spec _ _ _ _ _ _ Etry) as (k & Hlog & _ & Hcache).
  - simpl. eauto.
  - destruct (catch_block client config err s2) as [res s3] eqn:Ecatch.
    destruct (catch_block_spec _ _ _ _ _ _ Ecatch) as (Hl3 & Ht3 & e & ->).
    simpl. rewrite Hl3, Ht3. eauto.
Qed.

Lemma cache_check_expired full config (s : St) entry :
  cacheable config = true ->
  cache (this s) !! generateCacheKey full config = Some entry ->
  cacheTimeout (this s) <= now (env (world s)) - timestamp entry ->
  cache_check full config s
  = (Normal None,
     {| this := set_cache (delete (generateCacheKey full config) (cache (this s)))
                          (this s);
        world := world s |}).
Proof.
  intros Hc Hin Hage. unfold cache_check. rewrite Hc. cbv zeta. unfold bind.
  rewrite (getCache_expired _ s entry Hin Hage). reflexivity.
Qed.

Lemma cache_check_falsy full config (s : St) entry :
  cacheable config = true ->
  cache (this s) !! generateCacheKey full config = Some entry ->
  now (env (world s)) - timestamp entry < cacheTimeout (this s) ->
  truthy (data entry) = false ->
  cache_check full config s = (Normal None, s).
Proof.
  intros Hc Hin Hage Hfalsy. unfold cache_check. rewrite Hc. cbv zeta.
  unfold bind. rewrite (getCache_fresh _ s entry Hin Hage).
  unfold ret. rewrite Hfalsy. reflexivity.
Qed.

(** X20. A cacheable GET that finds its entry expired evicts it and goes to the
    network: on success the new result is cached with the time of the
    write; on failure the key is left absent, the stale value is not put
    back. *)
Theorem expired_entry_is_evicted_and_refetched path options s config w0 entry :
  in_env (processRequestInterceptors (this s) (build_config (this s) options))
         (world s) = (Normal config, w0) ->
  cacheable config = true ->
  cache (this s) !! generateCacheKey (fullUrl (this s) path) config = Some entry ->
  cacheTimeout (this s) <= now (env w0) - timestamp entry ->
  let r := request path options s in
  (exists n,
     fetch_log (world (snd r))
     = fetch_log (world s) ++ repeat (fullUrl (this s) path, config) (S n))
  /\ cache (this (snd r)) !! generateCacheKey (fullUrl (this s) path) config
     = match fst r with
       | Normal v => Some {| data := v; timestamp := now (env (world (snd r))) |}
       | Throw _ => None
       end.
Proof.
  intros E0 Hc Hin Hage. cbv zeta. rewrite request_stages, E0.
  pose proof (in_env_world
    (processRequestInterceptors (this s) (build_config (this s) options))
    (world s)) as [Hl0 _].
  rewrite E0 in Hl0. simpl in Hl0.
  rewrite (cache_check_expired _ _ {| this := this s; world := w0 |} entry
             Hc Hin Hage).
  cbn [this world].
  set (s1 := {| this := set_cache (delete _ (cache (this s))) (this s);
                world := w0 |}).
  destruct (try_catch_effects (this s) (fullUrl (this s) path) config s1)
    as ((n & Hlog) & Hcache).
  cbn [world this s1] in Hlog. rewrite Hl0 in Hlog.
  split; [eauto |].
  destruct (fst (try_catch _ _ s1)) as [v | err]; rewrite Hcache.
  - rewrite Hc. apply lookup_insert_eq.
  - unfold s1. cbn [this set_cache cache]. apply lookup_delete_eq.
Qed.

(** X21. A cached value that is falsy (0, the empty string, [false], [null])
    never counts as a hit: the call goes to the network although the entry
    is fresh. *)
Theorem falsy_cached_value_is_refetched path options s config w0 entry :
  in_env (processRequestInterceptors (this s) (build_config (this s) options))
         (world s) = (Normal config, w0) ->
  cacheable config = true ->
  cache (this s) !! generateCacheKey (fullUrl (this s) path) config = Some entry ->
  now (env w0) - timestamp entry < cacheTimeout (this s) ->
  truthy (data entry) = false ->
  exists n,
    fetch_log (world (snd (request path options s)))
    = fetch_log (world s) ++ repeat (fullUrl (this s) path, config) (S n).
Proof.
  intros E0 Hc Hin Hage Hfalsy. rewrite request_stages, E0.
  pose proof (in_env_world
    (processRequestInterceptors (this s) (build_config (this s) options))
    (world s)) as [Hl0 _].
  rewrite E0 in Hl0. simpl in Hl0.
  rewrite (cache_check_falsy _ _ {| this := this s; world := w0 |} entry
             Hc Hin Hage Hfalsy).
  destruct (try_catch_effects (this s) (fullUrl (this s) path) config
              {| this := this s; world := w0 |}) as ((n & Hlog) & _).
  simpl in Hlog. rewrite Hl0 in Hlog. eauto.
Qed.

End CacheEdges.

(** The entry cached at time 1000 is replaced by a call at time 401000. *)
Lemma expired_entry_is_evicted_and_refetched_witness :
  let r := HttpClient.request "/data" Options.empty
             (Sample.state_at 401000 Sample.warm_client (Sample.always 200 "OK")) in
  (exists n,
     fetch_log (HttpClient.world (snd r))
     = [] ++ repeat ("/api/data", Sample.get_config) (S n))
  /\ HttpClient.cache (HttpClient.this (snd r)) !! "GET:/api/data:"
     = match fst r with
       | Normal v =>
           Some {| data := v;
                   timestamp := now (env (HttpClient.world (snd r))) |}
       | Throw _ => None
       end.
Proof.
  apply (expired_entry_is_evicted_and_refetched "/data" Options.empty
           (Sample.state_at 401000 Sample.warm_client (Sample.always 200 "OK"))
           Sample.get_config
           (HttpClient.world
              (Sample.state_at 401000 Sample.warm_client (Sample.always 200 "OK")))
           {| data := Sample.cached_value; timestamp := 1000 |});
    [reflexivity | reflexivity | reflexivity | vm_compute; discriminate].
Defined.

(** A cached 0 is fetched again one second later. *)
Lemma falsy_cached_value_is_refetched_witness :
  exists n,
    fetch_log (HttpClient.world (snd
      (HttpClient.request "/data" Options.empty
         (Sample.state_at 2000 Sample.zero_client (Sample.always 200 "OK")))))
    = [] ++ repeat ("/api/data", Sample.get_config) (S n).
Proof.
  apply (falsy_cached_value_is_refetched "/data" Options.empty
           (Sample.state_at 2000 Sample.zero_client (Sample.always 200 "OK"))
           Sample.get_config
           (HttpClient.world
              (Sample.state_at 2000 Sample.zero_client (Sample.always 200 "OK")))
           {| data := VNum 0; timestamp := 1000 |});
    reflexivity.
Defined.
